(** * Mastodon comments widget (static/js/mastodon.js)

    A shallow embedding of the widget: the sanitizer [escapeHtml], the
    emoji substitution [emojify], the renderers [renderComment] and
    [renderComments], and the loader [loadMastodonComments] and the
    initializer [initMastodon] that write the result into the page.

    Data model.
    - A JavaScript string is a [string]: the sequence of the bytes of its
      UTF-8 encoding.  Every character the program tests for is ASCII, and
      a text occurs in another in UTF-8 exactly where it does in UTF-16.
    - A reply and its parts are records with the fields the program
      reads; a field that may be missing or null is an [option].
    - A template literal is a list of [piece]s, its literal chunks and its
      holes, and [fill] is the text it stands for.
    - A computation yields an [outcome]: a value, an exception, or
      [Unmodelled] where it leaves the modelled part of the platform (a
      regular expression that is more than a literal text).
    - The page is the record [page]; the answer of the server is an
      input of the run, a [fetch_result].  The formatting of dates is a
      parameter, the class [Platform]. *)

From Stdlib Require Import String Ascii List Arith Lia Bool.
From Stdlib Require Import DecimalString.
Import ListNotations.
Open Scope string_scope.

(* ================================================================= *)
(** ** Strings *)

(** The double quote, which the templates of the program are full of. *)
Definition dquote : ascii := "034"%char.

(** Templates are written with [~] where the source has a double quote. *)
Fixpoint tq (s : string) : string :=
  match s with
  | EmptyString => EmptyString
  | String c s' => String (if Ascii.eqb c "~" then dquote else c) (tq s')
  end.

Fixpoint drop (n : nat) (s : string) : string :=
  match n, s with
  | O, _ => s
  | S _, EmptyString => EmptyString
  | S n', String _ s' => drop n' s'
  end.

(** [occurs p s]: the text [p] occurs somewhere in [s]. *)
Fixpoint occurs (p s : string) : bool :=
  prefix p s ||
  match s with
  | EmptyString => false
  | String _ s' => occurs p s'
  end.

(** [count_occ p s]: at how many positions of [s] the text [p] starts. *)
Fixpoint count_occ (p s : string) : nat :=
  (if prefix p s then 1 else 0) +
  match s with
  | EmptyString => 0
  | String _ s' => count_occ p s'
  end.

Fixpoint mem (c : ascii) (s : string) : bool :=
  match s with
  | EmptyString => false
  | String x s' => Ascii.eqb x c || mem c s'
  end.

Fixpoint forall_chars (f : ascii -> bool) (s : string) : bool :=
  match s with
  | EmptyString => true
  | String c s' => f c && forall_chars f s'
  end.

Fixpoint last_char (s : string) : option ascii :=
  match s with
  | EmptyString => None
  | String c EmptyString => Some c
  | String _ s' => last_char s'
  end.

Fixpoint flat_map_chars (f : ascii -> string) (s : string) : string :=
  match s with
  | EmptyString => EmptyString
  | String c s' => f c ++ flat_map_chars f s'
  end.

(* ================================================================= *)
(** ** String.prototype.replace with a global pattern *)

(** GetSubstitution of ECMAScript for a match without capture groups:
    [$$] is a dollar, [$&] the matched text, [$`] the text before the
    match, [$'] the text after it; a dollar before anything else (a digit
    or [<] included, as there is no group) stands for itself. *)
Fixpoint GetSubstitution (matched before after replacement : string) : string :=
  match replacement with
  | EmptyString => EmptyString
  | String a rest =>
      if Ascii.eqb a "$" then
        match rest with
        | EmptyString => String "$" EmptyString
        | String b rest' =>
            if Ascii.eqb b "$" then String "$" (GetSubstitution matched before after rest')
            else if Ascii.eqb b "&" then matched ++ GetSubstitution matched before after rest'
            else if Ascii.eqb b "`" then before ++ GetSubstitution matched before after rest'
            else if Ascii.eqb b "'" then after ++ GetSubstitution matched before after rest'
            else String "$" (GetSubstitution matched before after rest)
        end
      else String a (GetSubstitution matched before after rest)
  end.

(** A replacement text in which no dollar starts one of the four
    patterns. *)
Fixpoint pattern_free (replacement : string) : bool :=
  match replacement with
  | EmptyString => true
  | String a rest =>
      (if Ascii.eqb a "$" then
         match rest with
         | EmptyString => true
         | String b _ =>
             negb (Ascii.eqb b "$" || Ascii.eqb b "&" || Ascii.eqb b "`" || Ascii.eqb b "'")
         end
       else true)
      && pattern_free rest
  end.

(** [s.replace(/pat/g, replacement)] for a pattern [pat] that is a
    non-empty literal text: the subject is scanned from the left, every
    match is replaced and the scan goes on after it.  [before] is the part
    of the subject already scanned; [n] bounds the number of steps and
    [length s] is always enough. *)
Fixpoint replace_scan (n : nat) (pat replacement before s : string) : string :=
  match n with
  | O => s
  | S n' =>
      match s with
      | EmptyString => EmptyString
      | String c s' =>
          if prefix pat s then
            let after := drop (String.length pat) s in
            GetSubstitution pat before after replacement
              ++ replace_scan n' pat replacement (before ++ pat) after
          else String c (replace_scan n' pat replacement (before ++ String c EmptyString) s')
      end
  end.

Definition replace_literal (pat replacement s : string) : string :=
  replace_scan (String.length s) pat replacement EmptyString s.

(* ================================================================= *)
(** ** escapeHtml *)

Definition escapeHtml (unsafe : string) : string :=
  replace_literal "'" "&#039;"
    (replace_literal (String dquote EmptyString) "&quot;"
      (replace_literal ">" "&gt;"
        (replace_literal "<" "&lt;"
          (replace_literal "&" "&amp;" unsafe)))).

(** The five replacements as the specification words them: every
    occurrence of one character gives way to its entity. *)
Definition subst_char (c : ascii) (entity : string) (s : string) : string :=
  flat_map_chars (fun x => if Ascii.eqb x c then entity else String x EmptyString) s.

(** All five in one pass over the text. *)
Definition escape_char (c : ascii) : string :=
  if Ascii.eqb c "&" then "&amp;"
  else if Ascii.eqb c "<" then "&lt;"
  else if Ascii.eqb c ">" then "&gt;"
  else if Ascii.eqb c dquote then "&quot;"
  else if Ascii.eqb c "'" then "&#039;"
  else String c EmptyString.

Definition entities : list string :=
  ["&amp;"; "&lt;"; "&gt;"; "&quot;"; "&#039;"].

(** The five replacements, one after the other. *)
Definition five_replacements (s : string) : string :=
  subst_char "'" "&#039;"
    (subst_char dquote "&quot;"
      (subst_char ">" "&gt;"
        (subst_char "<" "&lt;"
          (subst_char "&" "&amp;" s)))).

(** Where an ampersand stands in [s], an entity starts. *)
Definition ampersands_start_entities (s : string) : Prop :=
  forall i, get i s = Some "&"%char ->
    exists e, In e entities /\ prefix e (drop i s) = true.

(** What the sanitizer is there to remove. *)
Definition no_markup (h : string) : Prop :=
  forall c, In c ["<"; ">"; dquote; "'"]%char -> mem c h = false.

(** [h] is the output of the sanitizer on one of [texts]. *)
Definition sanitized (texts : list string) (h : string) : Prop :=
  exists text, In text texts /\ h = escapeHtml text.

(* ================================================================= *)
(** ** Outcomes of a computation *)

Inductive exn : Type :=
| Error (message : string)
| TypeError
| RangeError
| SyntaxError.

(** A computation returns a value, throws, or leaves the part of the
    platform that is modelled here. *)
Inductive outcome (A : Type) : Type :=
| Value (a : A)
| Throws (e : exn)
| Unmodelled.

Arguments Value {A} a.
Arguments Throws {A} e.
Arguments Unmodelled {A}.

Definition bind {A B : Type} (m : outcome A) (k : A -> outcome B) : outcome B :=
  match m with
  | Value a => k a
  | Throws e => Throws e
  | Unmodelled => Unmodelled
  end.

Notation "x <- m ;; k" := (bind m (fun x => k))
  (at level 61, m at next level, right associativity).

Fixpoint mapM {A B : Type} (f : A -> outcome B) (l : list A) : outcome (list B) :=
  match l with
  | [] => Value []
  | a :: l' => b <- f a ;; bs <- mapM f l' ;; Value (b :: bs)
  end.

Fixpoint foldM {A B : Type} (f : B -> A -> outcome B) (l : list A) (b : B) : outcome B :=
  match l with
  | [] => Value b
  | a :: l' => b' <- f b a ;; foldM f l' b'
  end.

(** [a || b] on a text that may be absent: absent and empty are falsy. *)
Definition or_else (a : option string) (b : string) : string :=
  match a with
  | None => b
  | Some s => if (s =? "")%string then b else s
  end.

Definition falsy (a : option string) : bool :=
  match a with
  | None => true
  | Some s => (s =? "")%string
  end.

(* ================================================================= *)
(** ** Template literals *)

(** A template literal is a sequence of literal chunks and of holes
    [${...}] that hold the value of an expression. *)
Inductive piece : Type :=
| Lit (text : string)
| Hole (value : string).

Definition piece_text (p : piece) : string :=
  match p with
  | Lit s => s
  | Hole s => s
  end.

Fixpoint fill (t : list piece) : string :=
  match t with
  | [] => EmptyString
  | p :: t' => piece_text p ++ fill t'
  end.

Fixpoint holes (t : list piece) : list string :=
  match t with
  | [] => []
  | Lit _ :: t' => holes t'
  | Hole s :: t' => s :: holes t'
  end.

(* ================================================================= *)
(** ** The platform *)

(** The syntax characters of a pattern. *)
Definition syntax_character (c : ascii) : bool := mem c "^$\.*+?()[]{}|".

Definition literal_source (source : string) : bool :=
  forall_chars (fun c => negb (syntax_character c)) source.

(** [new RegExp(source, 'g')] is modelled for a non-empty source without
    syntax characters, where the pattern matches its own text and nothing
    else; the value is that text.  Any other source is outside the model. *)
Definition RegExp (source : string) : outcome string :=
  if negb (source =? "")%string && literal_source source
  then Value source
  else Unmodelled.

(** [new Date(dateString).toLocaleDateString(lang, options)], with the
    options of [formatDate]: a formatted date, the text of an invalid date,
    or a RangeError for a locale the platform refuses. *)
Class Platform : Type :=
  { toLocaleDateString : string -> string -> outcome string }.

(* ================================================================= *)
(** ** The reply, as the server sends it *)

(** The records hold a reply every text of which is a string: the texts
    that the program hands to [escapeHtml] or to [replace].  A reply in
    which one of them is null or missing is a reply of the module [Json]
    below, where the renderers are written again with the TypeError that
    such a text gives; [decode_comment] takes the one reading to the
    other. *)

Module Account.
Record t : Type :=
  { display_name : option string;
    username : string;
    url : string;
    avatar : string }.
End Account.

Module Emoji.
Record t : Type :=
  { shortcode : string;
    url : string }.
End Emoji.

Module Media.
Record t : Type :=
  { type : string;
    url : string;
    preview_url : string;
    mime_type : option string;
    description : option string }.
End Media.

Module Comment.
Record t : Type :=
  { account : Account.t;
    content : string;
    emojis : option (list Emoji.t);
    created_at : string;
    url : string;
    media_attachments : option (list Media.t) }.
End Comment.

(* ================================================================= *)
(** ** formatDate and emojify *)

Definition formatDate `{Platform} (dateString lang : string) : outcome string :=
  toLocaleDateString dateString lang.

Definition emoji_template (emojiUrl shortcode : string) : list piece :=
  Eval cbv in
  [Lit (tq "<img src=~");
   Hole emojiUrl;
   Lit (tq "~ alt=~");
   Hole shortcode;
   Lit (tq "~ class=~emoji~ loading=~lazy~ />")].

(** The body of the [forEach] of [emojify]: one pass over the content. *)
Definition emojify_pass (content : string) (emoji : Emoji.t) : outcome string :=
  let emojiUrl := escapeHtml (Emoji.url emoji) in
  let shortcode := escapeHtml (Emoji.shortcode emoji) in
  regex <- RegExp (":" ++ Emoji.shortcode emoji ++ ":") ;;
  Value (replace_literal regex (fill (emoji_template emojiUrl shortcode)) content).

Definition emojify (content : string) (emojis : option (list Emoji.t)) : outcome string :=
  match emojis with
  | None => Value content
  | Some [] => Value content
  | Some l => foldM emojify_pass l content
  end.

(** The pattern and the image element of a pair. *)
Definition shortcode_pattern (emoji : Emoji.t) : string :=
  ":" ++ Emoji.shortcode emoji ++ ":".

Definition emoji_img (emoji : Emoji.t) : string :=
  fill (emoji_template (escapeHtml (Emoji.url emoji)) (escapeHtml (Emoji.shortcode emoji))).

Definition emoji_texts (emoji : Emoji.t) : list string :=
  [Emoji.url emoji; Emoji.shortcode emoji].

(* ================================================================= *)
(** ** renderComment *)

Definition image_template (mediaUrl previewUrl description : string) : list piece :=
  Eval cbv in
  [Lit (tq "<a href=~");
   Hole mediaUrl;
   Lit (tq "~ target=~_blank~ rel=~noopener noreferrer~>
                    <img src=~");
   Hole previewUrl;
   Lit (tq "~ alt=~");
   Hole description;
   Lit (tq "~ loading=~lazy~ />
                </a>")].

Definition video_template (mediaUrl previewUrl mimeType : string) : list piece :=
  Eval cbv in
  [Lit (tq "<video controls preload=~metadata~ poster=~");
   Hole previewUrl;
   Lit (tq "~>
                    <source src=~");
   Hole mediaUrl;
   Lit (tq "~ type=~");
   Hole mimeType;
   Lit (tq "~>
                </video>")].

Definition audio_template (mediaUrl mimeType : string) : list piece :=
  Eval cbv in
  [Lit (tq "<audio controls preload=~metadata~>
                    <source src=~");
   Hole mediaUrl;
   Lit (tq "~ type=~");
   Hole mimeType;
   Lit (tq "~>
                </audio>")].

(** [a || b] on two texts. *)
Definition or_text (a b : string) : string :=
  if (a =? "")%string then b else a.

(** What the body of the [forEach] over the attachments adds to
    [attachmentsHtml] for one attachment, as a template. *)
Definition media_template (media : Media.t) : list piece :=
  let mediaUrl := escapeHtml (Media.url media) in
  let previewUrl := escapeHtml (Media.preview_url media) in
  let mimeType := escapeHtml (or_else (Media.mime_type media) "") in
  if (Media.type media =? "image")%string then
    image_template mediaUrl previewUrl
      (escapeHtml (or_else (Media.description media) "Image"))
  else if (Media.type media =? "video")%string || (Media.type media =? "gifv")%string then
    video_template mediaUrl previewUrl (or_text mimeType "video/mp4")
  else if (Media.type media =? "audio")%string then
    audio_template mediaUrl (or_text mimeType "audio/mpeg")
  else [].

Definition attachments_open : string :=
  Eval cbv in tq "<div class=~mastodon-attachments~>".

Definition attachments_close : string := "</div>".

Definition attachments (media_attachments : option (list Media.t)) : string :=
  match media_attachments with
  | None => EmptyString
  | Some [] => EmptyString
  | Some l =>
      fold_left (fun attachmentsHtml media => attachmentsHtml ++ fill (media_template media))
        l attachments_open
      ++ attachments_close
  end.

Definition comment_template
    (avatarUrl displayName accountUrl username commentUrl timestamp content
       attachmentsHtml : string) : list piece :=
  Eval cbv in
  [Lit (tq "
        <div class=~mastodon-comment~>
            <div class=~mastodon-comment-header~>
                <img src=~");
   Hole avatarUrl;
   Lit (tq "~ alt=~");
   Hole displayName;
   Lit (tq "'s avatar~ class=~mastodon-avatar~ loading=~lazy~ />
                <div class=~mastodon-author~>
                    <a href=~");
   Hole accountUrl;
   Lit (tq "~ target=~_blank~ rel=~noopener noreferrer~ class=~mastodon-author-name~>
                        ");
   Hole displayName;
   Lit (tq "
                    </a>
                    <a href=~");
   Hole accountUrl;
   Lit (tq "~ target=~_blank~ rel=~noopener noreferrer~ class=~mastodon-author-handle~>
                        @");
   Hole username;
   Lit (tq "
                    </a>
                </div>
                <a href=~");
   Hole commentUrl;
   Lit (tq "~ target=~_blank~ rel=~noopener noreferrer~ class=~mastodon-comment-date~>
                    ");
   Hole timestamp;
   Lit (tq "
                </a>
            </div>
            <div class=~mastodon-comment-content~>
                ");
   Hole content;
   Lit (tq "
            </div>
            ");
   Hole attachmentsHtml;
   Lit (tq "
        </div>
    ")].

Definition renderComment `{Platform} (comment : Comment.t) (lang : string) : outcome string :=
  let account := Comment.account comment in
  let displayName :=
    escapeHtml (or_else (Account.display_name account) (Account.username account)) in
  let username := escapeHtml (Account.username account) in
  let accountUrl := escapeHtml (Account.url account) in
  let avatarUrl := escapeHtml (Account.avatar account) in
  content <- emojify (Comment.content comment) (Comment.emojis comment) ;;
  timestamp <- formatDate (Comment.created_at comment) lang ;;
  let commentUrl := escapeHtml (Comment.url comment) in
  let attachmentsHtml := attachments (Comment.media_attachments comment) in
  Value (fill (comment_template avatarUrl displayName accountUrl username commentUrl
                 timestamp content attachmentsHtml)).

(** The texts of a reply that renderComment shows as they are. *)
Definition reply_texts (comment : Comment.t) : list string :=
  let account := Comment.account comment in
  [or_else (Account.display_name account) (Account.username account);
   Account.username account;
   Account.url account;
   Account.avatar account;
   Comment.url comment].

Definition media_texts (media : Media.t) : list string :=
  [Media.url media;
   Media.preview_url media;
   or_else (Media.mime_type media) EmptyString;
   or_else (Media.description media) "Image"].

(* ================================================================= *)
(** ** renderComments *)

Definition no_comments_html : string :=
  Eval cbv in
  tq "<p class=~mastodon-no-comments~>No comments yet. Be the first to comment on Mastodon!</p>".

(** [fragments.join('')] *)
Fixpoint join (fragments : list string) : string :=
  match fragments with
  | [] => EmptyString
  | f :: l => f ++ join l
  end.

Definition renderComments `{Platform} (comments : option (list Comment.t)) (lang : string)
  : outcome string :=
  match comments with
  | None => Value no_comments_html
  | Some [] => Value no_comments_html
  | Some l =>
      fragments <- mapM (fun comment => renderComment comment lang) l ;;
      Value (join fragments)
  end.

(* ================================================================= *)
(** ** The page *)

(** The element that [document.querySelector('.comments')] finds. *)
Record element : Type :=
  { attributes : list (string * string);
    innerHTML : string }.

Fixpoint getAttribute (name : string) (attrs : list (string * string)) : option string :=
  match attrs with
  | [] => None
  | (n, v) :: attrs' => if (n =? name)%string then Some v else getAttribute name attrs'
  end.

Inductive log_entry : Type :=
| LogNotConfigured            (* 'Mastodon host or post ID not configured' *)
| LogLoadError (error : exn). (* 'Error loading Mastodon comments:', error *)

(** What the program reads and writes: the outer container, the children of
    the element with id [mastodon-comments-list] ([None] when the document
    has no such element), the console, and the requests sent.  The id is
    taken to be used by the skeleton of the widget only. *)
Record page : Type :=
  { commentsDiv : option element;
    commentsList : option string;
    console : list log_entry;
    requests : list string }.

Definition console_error (entry : log_entry) (pg : page) : page :=
  {| commentsDiv := commentsDiv pg;
     commentsList := commentsList pg;
     console := (console pg ++ [entry])%list;
     requests := requests pg |}.

Definition send_request (url : string) (pg : page) : page :=
  {| commentsDiv := commentsDiv pg;
     commentsList := commentsList pg;
     console := console pg;
     requests := (requests pg ++ [url])%list |}.

(** [commentsContainer.innerHTML = html]; a TypeError when the container
    is null. *)
Definition with_commentsList (html : string) (pg : page) : page :=
  {| commentsDiv := commentsDiv pg;
     commentsList := Some html;
     console := console pg;
     requests := requests pg |}.

Definition set_commentsList (html : string) (pg : page) : outcome page :=
  match commentsList pg with
  | None => Throws TypeError
  | Some _ => Value (with_commentsList html pg)
  end.

(** The answer of the network to the one request, given from outside. *)
Record context_json : Type :=
  { descendants : option (list Comment.t) }.

Inductive body : Type :=
| BodyRejected (e : exn)          (* response.json() rejects *)
| Json (data : context_json).

Inductive fetch_result : Type :=
| FetchRejected (e : exn)         (* no response: the transport failed *)
| Response (ok : bool) (status : nat) (b : body).

(** How a run of the loader or of the initializer ends. *)
Inductive completion : Type :=
| Settled (pg : page)
| Rejected (pg : page) (e : exn)
| OutOfModel.

(* ================================================================= *)
(** ** Validation and the request *)

Definition in_range (lo hi c : ascii) : bool :=
  Nat.leb (nat_of_ascii lo) (nat_of_ascii c) && Nat.leb (nat_of_ascii c) (nat_of_ascii hi).

(** Canonicalize of a case-insensitive pattern: the upper case of a
    character; a character outside ASCII is never sent into ASCII. *)
Definition Canonicalize (c : ascii) : ascii :=
  if in_range "a" "z" c then ascii_of_nat (nat_of_ascii c - 32) else c.

(** [/^[a-z0-9.-]+$/i.test(host)] *)
Definition host_class (c : ascii) : bool :=
  let cc := Canonicalize c in
  in_range "A" "Z" cc || in_range "0" "9" cc || Ascii.eqb cc "." || Ascii.eqb cc "-".

Definition test_host (host : string) : bool :=
  match host with
  | EmptyString => false
  | _ => forall_chars host_class host
  end.

(** The characters of a domain name, as the pattern of the host lists
    them and in both cases. *)
Definition domain_char (c : ascii) : bool :=
  in_range "a" "z" c || in_range "A" "Z" c || in_range "0" "9" c
  || Ascii.eqb c "." || Ascii.eqb c "-".

(** [/^\d+$/.test(postId)] *)
Definition test_post_id (postId : string) : bool :=
  match postId with
  | EmptyString => false
  | _ => forall_chars (in_range "0" "9") postId
  end.

Definition hex_digit (n : nat) : ascii :=
  match get n "0123456789ABCDEF" with
  | Some c => c
  | None => "0"%char
  end.

Definition uri_unreserved (c : ascii) : bool :=
  in_range "a" "z" c || in_range "A" "Z" c || in_range "0" "9" c || mem c "-_.!~*'()".

(** On the UTF-8 bytes of a text, [encodeURIComponent] keeps the unreserved
    characters and writes every other byte as [%XX]. *)
Definition encodeURIComponent (s : string) : string :=
  flat_map_chars
    (fun c =>
       if uri_unreserved c then String c EmptyString
       else String "%" (String (hex_digit (nat_of_ascii c / 16))
                          (String (hex_digit (nat_of_ascii c mod 16)) EmptyString)))
    s.

Definition context_url (host postId : string) : string :=
  "https://" ++ encodeURIComponent host ++ "/api/v1/statuses/"
    ++ encodeURIComponent postId ++ "/context".

Definition status_text (status : nat) : string :=
  NilEmpty.string_of_uint (Nat.to_uint status).

(* ================================================================= *)
(** ** loadMastodonComments *)

Definition error_html : string :=
  Eval cbv in
  tq "<p class=~mastodon-error~>Failed to load comments. Please try again later.</p>".

(** The [try] block up to the markup it is about to write: the page as it
    is when the block ends, and what the block computed. *)
Definition load_try `{Platform} (host postId lang : string) (net : fetch_result) (pg : page)
  : page * outcome string :=
  if negb (test_host host) then (pg, Throws (Error "Invalid Mastodon host"))
  else if negb (test_post_id postId) then (pg, Throws (Error "Invalid Mastodon post ID"))
  else
    let pg1 := send_request (context_url host postId) pg in
    match net with
    | FetchRejected e => (pg1, Throws e)
    | Response ok status b =>
        if negb ok then (pg1, Throws (Error ("HTTP error! status: " ++ status_text status)))
        else
          match b with
          | BodyRejected e => (pg1, Throws e)
          | Json data =>
              let comments :=
                match descendants data with
                | Some l => l
                | None => []
                end in
              (pg1, renderComments (Some comments) lang)
          end
    end.

Definition loadMastodonComments `{Platform} (host postId lang : string)
    (net : fetch_result) (pg : page) : completion :=
  let (pg1, computed) := load_try host postId lang net pg in
  match html <- computed ;; set_commentsList html pg1 with
  | Value pg2 => Settled pg2
  | Unmodelled => OutOfModel
  | Throws error =>
      let pg2 := console_error (LogLoadError error) pg1 in
      match set_commentsList error_html pg2 with
      | Value pg3 => Settled pg3
      | Throws e => Rejected pg2 e
      | Unmodelled => OutOfModel
      end
  end.

(* ================================================================= *)
(** ** initMastodon *)

Definition link_template (escapedPostUrl : string) : list piece :=
  Eval cbv in
  [Lit (tq "<a href=~");
   Hole escapedPostUrl;
   Lit (tq "~ target=~_blank~ rel=~noopener noreferrer~ class=~mastodon-comment-link~>Comment on Mastodon</a>")].

(** The children the parser gives the list element of the skeleton. *)
Definition loading_html : string :=
  Eval cbv in
  tq "
                    <p class=~mastodon-loading~>Loading comments...</p>
                ".

Definition skeleton_template (postLink : string) : list piece :=
  Eval cbv in
  [Lit (tq "
            <div class=~mastodon-comments~>
                <div class=~mastodon-comments-header~>
                    <h3>Comments</h3>
                    ");
   Hole postLink;
   Lit (tq "
                </div>
                <div id=~mastodon-comments-list~>");
   Lit loading_html;
   Lit (tq "</div>
            </div>
        ")].

(** The container is taken to parse what is assigned to its [innerHTML]
    into elements, as the [div] of the page template does, and the page to
    hold no other element with the id of the list: after the assignment
    [getElementById] finds the list element of the skeleton, with the
    loading message as its content. *)
Definition initMastodon `{Platform} (net : fetch_result) (pg : page) : completion :=
  match commentsDiv pg with
  | None => Settled pg
  | Some div =>
      let host := getAttribute "data-mastodon-host" (attributes div) in
      let postId := getAttribute "data-mastodon-post-id" (attributes div) in
      let lang := or_else (getAttribute "data-page-language" (attributes div)) "en" in
      let postUrl := getAttribute "data-mastodon-post-url" (attributes div) in
      if falsy host || falsy postId then
        Settled (console_error LogNotConfigured pg)
      else
        let escapedPostUrl := if falsy postUrl then EmptyString
                              else escapeHtml (or_else postUrl EmptyString) in
        let commentsHtml :=
          fill (skeleton_template
                  (if (escapedPostUrl =? "")%string then EmptyString
                   else fill (link_template escapedPostUrl))) in
        let pg1 :=
          {| commentsDiv := Some {| attributes := attributes div; innerHTML := commentsHtml |};
             commentsList := Some loading_html;
             console := console pg;
             requests := requests pg |} in
        loadMastodonComments (or_else host EmptyString) (or_else postId EmptyString) lang net pg1
  end.

(** The failures of the fetch stage: a host or a post identifier that is
    refused, no response, a status that is no success, a body that does
    not parse. *)
Inductive fetch_stage_failure (host postId : string) : fetch_result -> Prop :=
| invalid_host net :
    test_host host = false -> fetch_stage_failure host postId net
| invalid_post_id net :
    test_post_id postId = false -> fetch_stage_failure host postId net
| transport_failure e :
    fetch_stage_failure host postId (FetchRejected e)
| bad_status status b :
    fetch_stage_failure host postId (Response false status b)
| malformed_body status e :
    fetch_stage_failure host postId (Response true status (BodyRejected e)).

(* ================================================================= *)
(** ** Inputs for the examples *)

(** A platform to run the examples on: it shows a date as it is written
    and refuses the locale [en_US], which is no language tag. *)
Definition example_platform : Platform :=
  {| toLocaleDateString :=
       fun dateString lang =>
         if (lang =? "en_US")%string then Throws RangeError else Value dateString |}.

Definition example_comment (name body : string) : Comment.t :=
  {| Comment.account :=
       {| Account.display_name := Some name;
          Account.username := "user";
          Account.url := "https://example.social/@user";
          Account.avatar := "https://example.social/a.png" |};
     Comment.content := body;
     Comment.emojis := None;
     Comment.created_at := "2024-01-01T10:00:00Z";
     Comment.url := "https://example.social/@user/1";
     Comment.media_attachments := None |}.

Definition example_page (attrs : list (string * string)) : page :=
  {| commentsDiv := Some {| attributes := attrs; innerHTML := EmptyString |};
     commentsList := None;
     console := [];
     requests := [] |}.

Definition example_attributes : list (string * string) :=
  [("class", "comments");
   ("data-mastodon-host", "example.social");
   ("data-mastodon-post-id", "1");
   ("data-mastodon-post-url", "https://example.social/@user/1")].

(* ================================================================= *)
(** ** Further notions *)

(** The five characters the sanitizer replaces. *)
Definition significant (c : ascii) : bool :=
  Ascii.eqb c "&" || Ascii.eqb c "<" || Ascii.eqb c ">"
  || Ascii.eqb c dquote || Ascii.eqb c "'".

(** A text without any of them. *)
Definition plain (s : string) : bool :=
  forall_chars (fun c => negb (significant c)) s.

(** The kinds of attachment that renderComment has an element for. *)
Definition known_kind (media : Media.t) : bool :=
  (Media.type media =? "image")%string
  || (Media.type media =? "video")%string
  || (Media.type media =? "gifv")%string
  || (Media.type media =? "audio")%string.

Definition completion_page (c : completion) : option page :=
  match c with
  | Settled pg => Some pg
  | Rejected pg _ => Some pg
  | OutOfModel => None
  end.

(** The attributes that configure the widget are there and not empty. *)
Definition configured (div : element) : bool :=
  negb (falsy (getAttribute "data-mastodon-host" (attributes div))
        || falsy (getAttribute "data-mastodon-post-id" (attributes div))).

(** The link to the post in the skeleton, and the page once the skeleton
    is in the container: both are read off the attributes alone. *)
Definition post_link (div : element) : string :=
  let postUrl := getAttribute "data-mastodon-post-url" (attributes div) in
  let escapedPostUrl := if falsy postUrl then EmptyString
                        else escapeHtml (or_else postUrl EmptyString) in
  if (escapedPostUrl =? "")%string then EmptyString
  else fill (link_template escapedPostUrl).

Definition skeleton_page (div : element) (pg : page) : page :=
  {| commentsDiv :=
       Some {| attributes := attributes div;
               innerHTML := fill (skeleton_template (post_link div)) |};
     commentsList := Some loading_html;
     console := console pg;
     requests := requests pg |}.

Definition page_language (div : element) : string :=
  or_else (getAttribute "data-page-language" (attributes div)) "en".

Definition page_host (div : element) : string :=
  or_else (getAttribute "data-mastodon-host" (attributes div)) EmptyString.

Definition page_post_id (div : element) : string :=
  or_else (getAttribute "data-mastodon-post-id" (attributes div)) EmptyString.

(** A reply all of whose URLs, MIME types and emoji texts are plain. *)
Definition plain_emoji (emoji : Emoji.t) : bool :=
  plain (Emoji.url emoji) && plain (Emoji.shortcode emoji).

Definition plain_media (media : Media.t) : bool :=
  plain (Media.url media) && plain (Media.preview_url media)
  && plain (or_else (Media.mime_type media) EmptyString).

Definition plain_list {A : Type} (f : A -> bool) (l : option (list A)) : bool :=
  match l with
  | None => true
  | Some l => forallb f l
  end.

Definition plain_comment (comment : Comment.t) : bool :=
  plain (Account.url (Comment.account comment))
  && plain (Account.avatar (Comment.account comment))
  && plain (Comment.url comment)
  && plain_list plain_emoji (Comment.emojis comment)
  && plain_list plain_media (Comment.media_attachments comment).

(** A character that [encodeURIComponent] may write. *)
Definition url_safe (c : ascii) : bool := uri_unreserved c || Ascii.eqb c "%".

(* ================================================================= *)
(** ** The widget without the sanitizer on URLs (src/unnamed/part_000)

    The second source file is the same widget with the same templates,
    but it puts the URLs of a reply and of its attachments and emojis into
    the markup as they are, and it sends the request without a check of
    the host and the post identifier.  Its renderers and its loader are
    embedded here. *)

Module Variant.

Definition emojify_pass (content : string) (emoji : Emoji.t) : outcome string :=
  regex <- RegExp (":" ++ Emoji.shortcode emoji ++ ":") ;;
  Value (replace_literal regex
           (fill (emoji_template (Emoji.url emoji) (Emoji.shortcode emoji))) content).

Definition emojify (content : string) (emojis : option (list Emoji.t)) : outcome string :=
  match emojis with
  | None => Value content
  | Some [] => Value content
  | Some l => foldM emojify_pass l content
  end.

Definition media_template (media : Media.t) : list piece :=
  if (Media.type media =? "image")%string then
    image_template (Media.url media) (Media.preview_url media)
      (escapeHtml (or_else (Media.description media) "Image"))
  else if (Media.type media =? "video")%string || (Media.type media =? "gifv")%string then
    video_template (Media.url media) (Media.preview_url media)
      (or_else (Media.mime_type media) "video/mp4")
  else if (Media.type media =? "audio")%string then
    audio_template (Media.url media) (or_else (Media.mime_type media) "audio/mpeg")
  else [].

Definition attachments (media_attachments : option (list Media.t)) : string :=
  match media_attachments with
  | None => EmptyString
  | Some [] => EmptyString
  | Some l =>
      fold_left (fun attachmentsHtml media => attachmentsHtml ++ fill (media_template media))
        l attachments_open
      ++ attachments_close
  end.

Definition renderComment `{Platform} (comment : Comment.t) (lang : string) : outcome string :=
  let account := Comment.account comment in
  let displayName :=
    escapeHtml (or_else (Account.display_name account) (Account.username account)) in
  let username := escapeHtml (Account.username account) in
  let accountUrl := Account.url account in
  let avatarUrl := Account.avatar account in
  content <- emojify (Comment.content comment) (Comment.emojis comment) ;;
  timestamp <- formatDate (Comment.created_at comment) lang ;;
  let commentUrl := Comment.url comment in
  let attachmentsHtml := attachments (Comment.media_attachments comment) in
  Value (fill (comment_template avatarUrl displayName accountUrl username commentUrl
                 timestamp content attachmentsHtml)).

Definition renderComments `{Platform} (comments : option (list Comment.t)) (lang : string)
  : outcome string :=
  match comments with
  | None => Value no_comments_html
  | Some [] => Value no_comments_html
  | Some l =>
      fragments <- mapM (fun comment => renderComment comment lang) l ;;
      Value (join fragments)
  end.

Definition context_url (host postId : string) : string :=
  "https://" ++ host ++ "/api/v1/statuses/" ++ postId ++ "/context".

Definition load_try `{Platform} (host postId lang : string) (net : fetch_result) (pg : page)
  : page * outcome string :=
  let pg1 := send_request (context_url host postId) pg in
  match net with
  | FetchRejected e => (pg1, Throws e)
  | Response ok status b =>
      if negb ok then (pg1, Throws (Error ("HTTP error! status: " ++ status_text status)))
      else
        match b with
        | BodyRejected e => (pg1, Throws e)
        | Json data =>
            let comments :=
              match descendants data with
              | Some l => l
              | None => []
              end in
            (pg1, renderComments (Some comments) lang)
        end
  end.

Definition loadMastodonComments `{Platform} (host postId lang : string)
    (net : fetch_result) (pg : page) : completion :=
  let (pg1, computed) := load_try host postId lang net pg in
  match html <- computed ;; set_commentsList html pg1 with
  | Value pg2 => Settled pg2
  | Unmodelled => OutOfModel
  | Throws error =>
      let pg2 := console_error (LogLoadError error) pg1 in
      match set_commentsList error_html pg2 with
      | Value pg3 => Settled pg3
      | Throws e => Rejected pg2 e
      | Unmodelled => OutOfModel
      end
  end.

End Variant.

(* ================================================================= *)
(** ** The reply as the JSON of the server gives it

    In the records above every text of a reply is there.  In the JSON that
    the program reads, a text may be null or missing: the server documents
    the preview URL of an attachment and the permalink of a reply as
    nullable.  A [value] is such a field; the program runs [escapeHtml] on
    it ([unsafe.replace] throws a TypeError when [unsafe] is no string),
    tests it with [||] or [===], or prints it in a template. *)

Inductive value : Type :=
| Undefined
| Null
| Str (s : string).

Definition truthy (v : value) : bool :=
  match v with
  | Str s => negb (s =? "")%string
  | _ => false
  end.

(** [a || b] *)
Definition or_value (a b : value) : value := if truthy a then a else b.

(** [v === 'text'] *)
Definition strict_eq (v : value) (text : string) : bool :=
  match v with
  | Str s => (s =? text)%string
  | _ => false
  end.

(** [${v}] in a template. *)
Definition to_text (v : value) : string :=
  match v with
  | Undefined => "undefined"
  | Null => "null"
  | Str s => s
  end.

(** [escapeHtml(v)] *)
Definition escapeHtml_value (unsafe : value) : outcome string :=
  match unsafe with
  | Str s => Value (escapeHtml s)
  | _ => Throws TypeError
  end.

Module Json.

Module Account.
Record t : Type :=
  { display_name : value;
    username : value;
    url : value;
    avatar : value }.
End Account.

Module Emoji.
Record t : Type :=
  { shortcode : value;
    url : value }.
End Emoji.

Module Media.
Record t : Type :=
  { type : value;
    url : value;
    preview_url : value;
    mime_type : value;
    description : value }.
End Media.

Module Comment.
Record t : Type :=
  { account : Account.t;
    content : value;
    emojis : option (list Emoji.t);
    created_at : string;
    url : value;
    media_attachments : option (list Media.t) }.
End Comment.

(** [content.replace(regex, replacement)]: a TypeError when [content] is
    no string. *)
Definition replace_value (content : value) (regex replacement : string) : outcome value :=
  match content with
  | Str c => Value (Str (replace_literal regex replacement c))
  | _ => Throws TypeError
  end.

(** The body of the [forEach] of [emojify] (lines 22-29). *)
Definition emojify_pass (content : value) (emoji : Emoji.t) : outcome value :=
  emojiUrl <- escapeHtml_value (Emoji.url emoji) ;;
  shortcode <- escapeHtml_value (Emoji.shortcode emoji) ;;
  regex <- RegExp (":" ++ to_text (Emoji.shortcode emoji) ++ ":") ;;
  replace_value content regex (fill (emoji_template emojiUrl shortcode)).

Definition emojify (content : value) (emojis : option (list Emoji.t)) : outcome value :=
  match emojis with
  | None => Value content
  | Some [] => Value content
  | Some l => foldM emojify_pass l content
  end.

(** The body of the [forEach] over the attachments (lines 47-65): the
    three calls of [escapeHtml] come first, for every attachment, and the
    test of the kind after them. *)
Definition media_pass (media : Media.t) : outcome (list piece) :=
  mediaUrl <- escapeHtml_value (Media.url media) ;;
  previewUrl <- escapeHtml_value (Media.preview_url media) ;;
  mimeType <- escapeHtml_value (or_value (Media.mime_type media) (Str EmptyString)) ;;
  if strict_eq (Media.type media) "image" then
    description <- escapeHtml_value (or_value (Media.description media) (Str "Image")) ;;
    Value (image_template mediaUrl previewUrl description)
  else if strict_eq (Media.type media) "video" || strict_eq (Media.type media) "gifv" then
    Value (video_template mediaUrl previewUrl (or_text mimeType "video/mp4"))
  else if strict_eq (Media.type media) "audio" then
    Value (audio_template mediaUrl (or_text mimeType "audio/mpeg"))
  else Value [].

Definition attachments (media_attachments : option (list Media.t)) : outcome string :=
  match media_attachments with
  | None => Value EmptyString
  | Some [] => Value EmptyString
  | Some l =>
      attachmentsHtml <-
        foldM (fun attachmentsHtml media =>
                 template <- media_pass media ;;
                 Value (attachmentsHtml ++ fill template))
          l attachments_open ;;
      Value (attachmentsHtml ++ attachments_close)
  end.

Definition renderComment `{Platform} (comment : Comment.t) (lang : string) : outcome string :=
  let account := Comment.account comment in
  displayName <-
    escapeHtml_value (or_value (Account.display_name account) (Account.username account)) ;;
  username <- escapeHtml_value (Account.username account) ;;
  accountUrl <- escapeHtml_value (Account.url account) ;;
  avatarUrl <- escapeHtml_value (Account.avatar account) ;;
  content <- emojify (Comment.content comment) (Comment.emojis comment) ;;
  timestamp <- formatDate (Comment.created_at comment) lang ;;
  commentUrl <- escapeHtml_value (Comment.url comment) ;;
  attachmentsHtml <- attachments (Comment.media_attachments comment) ;;
  Value (fill (comment_template avatarUrl displayName accountUrl username commentUrl
                 timestamp (to_text content) attachmentsHtml)).

Definition renderComments `{Platform} (comments : option (list Comment.t)) (lang : string)
  : outcome string :=
  match comments with
  | None => Value no_comments_html
  | Some [] => Value no_comments_html
  | Some l =>
      fragments <- mapM (fun comment => renderComment comment lang) l ;;
      Value (join fragments)
  end.

End Json.

(** The renderers of the second source file on the same JSON
    (src/unnamed/part_000, lines 19-92): they print the URLs as they find
    them, and run [escapeHtml] on the names and the description only. *)
Module JsonVariant.

Definition emojify_pass (content : value) (emoji : Json.Emoji.t) : outcome value :=
  regex <- RegExp (":" ++ to_text (Json.Emoji.shortcode emoji) ++ ":") ;;
  Json.replace_value content regex
    (fill (emoji_template (to_text (Json.Emoji.url emoji))
             (to_text (Json.Emoji.shortcode emoji)))).

Definition emojify (content : value) (emojis : option (list Json.Emoji.t)) : outcome value :=
  match emojis with
  | None => Value content
  | Some [] => Value content
  | Some l => foldM emojify_pass l content
  end.

Definition media_pass (media : Json.Media.t) : outcome (list piece) :=
  if strict_eq (Json.Media.type media) "image" then
    description <-
      escapeHtml_value (or_value (Json.Media.description media) (Str "Image")) ;;
    Value (image_template (to_text (Json.Media.url media))
             (to_text (Json.Media.preview_url media)) description)
  else if strict_eq (Json.Media.type media) "video"
          || strict_eq (Json.Media.type media) "gifv" then
    Value (video_template (to_text (Json.Media.url media))
             (to_text (Json.Media.preview_url media))
             (to_text (or_value (Json.Media.mime_type media) (Str "video/mp4"))))
  else if strict_eq (Json.Media.type media) "audio" then
    Value (audio_template (to_text (Json.Media.url media))
             (to_text (or_value (Json.Media.mime_type media) (Str "audio/mpeg"))))
  else Value [].

Definition attachments (media_attachments : option (list Json.Media.t)) : outcome string :=
  match media_attachments with
  | None => Value EmptyString
  | Some [] => Value EmptyString
  | Some l =>
      attachmentsHtml <-
        foldM (fun attachmentsHtml media =>
                 template <- media_pass media ;;
                 Value (attachmentsHtml ++ fill template))
          l attachments_open ;;
      Value (attachmentsHtml ++ attachments_close)
  end.

Definition renderComment `{Platform} (comment : Json.Comment.t) (lang : string)
  : outcome string :=
  let account := Json.Comment.account comment in
  displayName <-
    escapeHtml_value (or_value (Json.Account.display_name account)
                        (Json.Account.username account)) ;;
  username <- escapeHtml_value (Json.Account.username account) ;;
  let accountUrl := to_text (Json.Account.url account) in
  let avatarUrl := to_text (Json.Account.avatar account) in
  content <- emojify (Json.Comment.content comment) (Json.Comment.emojis comment) ;;
  timestamp <- formatDate (Json.Comment.created_at comment) lang ;;
  let commentUrl := to_text (Json.Comment.url comment) in
  attachmentsHtml <- attachments (Json.Comment.media_attachments comment) ;;
  Value (fill (comment_template avatarUrl displayName accountUrl username commentUrl
                 timestamp (to_text content) attachmentsHtml)).

Definition renderComments `{Platform} (comments : option (list Json.Comment.t))
    (lang : string) : outcome string :=
  match comments with
  | None => Value no_comments_html
  | Some [] => Value no_comments_html
  | Some l =>
      fragments <- mapM (fun comment => renderComment comment lang) l ;;
      Value (join fragments)
  end.

End JsonVariant.

(** *** How the two readings of a reply correspond

    A JSON reply all of whose texts are strings is a reply of the records
    above; [decode_comment] gives it, and gives nothing when a text that
    the program takes for a string is null or missing. *)

Definition text_of (v : value) : option string :=
  match v with
  | Str s => Some s
  | _ => None
  end.

Definition decode_emoji (emoji : Json.Emoji.t) : option Emoji.t :=
  match Json.Emoji.shortcode emoji, Json.Emoji.url emoji with
  | Str shortcode, Str url => Some {| Emoji.shortcode := shortcode; Emoji.url := url |}
  | _, _ => None
  end.

Definition decode_media (media : Json.Media.t) : option Media.t :=
  match Json.Media.url media, Json.Media.preview_url media with
  | Str url, Str preview_url =>
      Some {| Media.type := to_text (Json.Media.type media);
              Media.url := url;
              Media.preview_url := preview_url;
              Media.mime_type := text_of (Json.Media.mime_type media);
              Media.description := text_of (Json.Media.description media) |}
  | _, _ => None
  end.

Fixpoint decode_all {A B : Type} (f : A -> option B) (l : list A) : option (list B) :=
  match l with
  | [] => Some []
  | a :: l' =>
      match f a, decode_all f l' with
      | Some b, Some bs => Some (b :: bs)
      | _, _ => None
      end
  end.

Definition decode_list {A B : Type} (f : A -> option B) (l : option (list A))
  : option (option (list B)) :=
  match l with
  | None => Some None
  | Some l =>
      match decode_all f l with
      | Some bs => Some (Some bs)
      | None => None
      end
  end.

Definition decode_comment (comment : Json.Comment.t) : option Comment.t :=
  let account := Json.Comment.account comment in
  match Json.Account.username account, Json.Account.url account,
        Json.Account.avatar account, Json.Comment.content comment,
        Json.Comment.url comment,
        decode_list decode_emoji (Json.Comment.emojis comment),
        decode_list decode_media (Json.Comment.media_attachments comment) with
  | Str username, Str accountUrl, Str avatar, Str content, Str url,
    Some emojis, Some media_attachments =>
      Some {| Comment.account :=
                {| Account.display_name := text_of (Json.Account.display_name account);
                   Account.username := username;
                   Account.url := accountUrl;
                   Account.avatar := avatar |};
              Comment.content := content;
              Comment.emojis := emojis;
              Comment.created_at := Json.Comment.created_at comment;
              Comment.url := url;
              Comment.media_attachments := media_attachments |}
  | _, _, _, _, _, _, _ => None
  end.

(** A JSON reply for the examples: a reply with one audio attachment
    whose preview URL is what [preview] says. *)
Definition example_audio (preview : value) : Json.Media.t :=
  {| Json.Media.type := Str "audio";
     Json.Media.url := Str "https://example.social/song.mp3";
     Json.Media.preview_url := preview;
     Json.Media.mime_type := Null;
     Json.Media.description := Null |}.

Definition example_json_comment (permalink : value) (media : option (list Json.Media.t))
  : Json.Comment.t :=
  {| Json.Comment.account :=
       {| Json.Account.display_name := Str "Ann";
          Json.Account.username := Str "user";
          Json.Account.url := Str "https://example.social/@user";
          Json.Account.avatar := Str "https://example.social/a.png" |};
     Json.Comment.content := Str "<p>hi</p>";
     Json.Comment.emojis := Some [];
     Json.Comment.created_at := "2024-01-01T10:00:00Z";
     Json.Comment.url := permalink;
     Json.Comment.media_attachments := media |}.

(* ================================================================= *)
(** * Properties *)

(** ** Strings *)

Lemma append_nil_r (s : string) : s ++ EmptyString = s.
Proof. induction s as [|c s IH]; simpl; [reflexivity | now rewrite IH]. Qed.

Lemma append_assoc (a b c : string) : (a ++ b) ++ c = a ++ (b ++ c).
Proof. induction a as [|x a IH]; simpl; [reflexivity | now rewrite IH]. Qed.

Lemma length_append (a b : string) :
  String.length (a ++ b) = String.length a + String.length b.
Proof. induction a as [|x a IH]; simpl; [reflexivity | now rewrite IH]. Qed.

Lemma mem_append (c : ascii) (a b : string) : mem c (a ++ b) = mem c a || mem c b.
Proof.
  induction a as [|x a IH]; simpl; [reflexivity|].
  rewrite IH. now destruct (Ascii.eqb x c).
Qed.

Lemma flat_map_chars_append (f : ascii -> string) (a b : string) :
  flat_map_chars f (a ++ b) = flat_map_chars f a ++ flat_map_chars f b.
Proof.
  induction a as [|x a IH]; simpl; [reflexivity|].
  now rewrite IH, append_assoc.
Qed.

Lemma prefix_nil (s : string) : prefix EmptyString s = true.
Proof. now destruct s. Qed.

Lemma prefix_char (c x : ascii) (s : string) :
  prefix (String c EmptyString) (String x s) = Ascii.eqb x c.
Proof.
  simpl. rewrite prefix_nil. destruct (ascii_dec c x) as [->|n].
  - now rewrite Ascii.eqb_refl.
  - symmetry. apply Ascii.eqb_neq. congruence.
Qed.

Lemma drop_length_append (p s : string) : drop (String.length p) (p ++ s) = s.
Proof. induction p as [|x p IH]; simpl; [reflexivity | exact IH]. Qed.

Lemma length_drop (n : nat) (s : string) :
  String.length (drop n s) = String.length s - n.
Proof.
  revert s; induction n as [|n IH]; intros s; simpl.
  - now rewrite Nat.sub_0_r.
  - destruct s as [|c s]; simpl; [reflexivity | apply IH].
Qed.

Lemma prefix_append (p s : string) : prefix p (p ++ s) = true.
Proof.
  induction p as [|x p IH]; simpl; [apply prefix_nil|].
  destruct (ascii_dec x x); [exact IH | congruence].
Qed.

(** ** The replacement text *)

Lemma GetSubstitution_no_dollar (matched before after r : string) :
  mem "$" r = false -> GetSubstitution matched before after r = r.
Proof.
  induction r as [|a r IH]; simpl; intros H; [reflexivity|].
  apply orb_false_iff in H as [Ha Hr].
  rewrite Ha. now rewrite IH.
Qed.

Lemma GetSubstitution_pattern_free (matched before after r : string) :
  pattern_free r = true -> GetSubstitution matched before after r = r.
Proof.
  induction r as [|a r IH]; [reflexivity|].
  cbn [pattern_free GetSubstitution]. intros H.
  apply andb_true_iff in H as [Ha Hr]. specialize (IH Hr).
  destruct (Ascii.eqb_spec a "$") as [->|_]; [|now rewrite IH].
  destruct r as [|b r]; [reflexivity|].
  apply negb_true_iff in Ha. apply orb_false_iff in Ha as [Ha H4].
  apply orb_false_iff in Ha as [Ha H3]. apply orb_false_iff in Ha as [H1 H2].
  rewrite H1, H2, H3, H4. now rewrite IH.
Qed.

Lemma no_dollar_pattern_free (r : string) : mem "$" r = false -> pattern_free r = true.
Proof.
  induction r as [|a r IH]; [reflexivity|].
  cbn [mem pattern_free]. intros H. apply orb_false_iff in H as [Ha Hr].
  rewrite Ha. now apply IH.
Qed.

(** ** The scan *)

(** More steps than the subject has characters change nothing. *)
Lemma replace_scan_enough (pat r : string) (n : nat) :
  pat <> EmptyString ->
  forall before s, String.length s <= n ->
    replace_scan n pat r before s = replace_scan (String.length s) pat r before s.
Proof.
  intros Hpat. induction n as [n IH] using lt_wf_ind. intros before s Hn.
  destruct n as [|n].
  - destruct s; [reflexivity | simpl in Hn; lia].
  - destruct s as [|c s]; [reflexivity|].
    cbn [replace_scan String.length].
    destruct (prefix pat (String c s)) eqn:Hp.
    + f_equal.
      assert (Hd : String.length (drop (String.length pat) (String c s)) <= String.length s).
      { rewrite length_drop. destruct pat; [congruence|]. simpl. lia. }
      rewrite (IH n) by (simpl in Hn; lia).
      rewrite (IH (String.length s)) with (s := drop _ _) by (simpl in Hn; lia).
      reflexivity.
    + f_equal. apply IH; simpl in Hn; lia.
Qed.

Lemma replace_scan_match (pat r before s : string) :
  pat <> EmptyString ->
  prefix pat s = true ->
  replace_scan (String.length s) pat r before s
  = GetSubstitution pat before (drop (String.length pat) s) r
      ++ replace_scan (String.length (drop (String.length pat) s)) pat r (before ++ pat)
           (drop (String.length pat) s).
Proof.
  intros Hpat Hp. destruct s as [|c s].
  - destruct pat; [congruence | discriminate].
  - cbn [replace_scan String.length]. rewrite Hp. f_equal.
    apply replace_scan_enough; [assumption|].
    rewrite length_drop. destruct pat; [congruence|]. simpl. lia.
Qed.

Lemma replace_scan_step (pat r before : string) (c : ascii) (s : string) :
  prefix pat (String c s) = false ->
  replace_scan (String.length (String c s)) pat r before (String c s)
  = String c (replace_scan (String.length s) pat r (before ++ String c EmptyString) s).
Proof. intros Hp. cbn [replace_scan String.length]. now rewrite Hp. Qed.

(** A pattern of one character and a replacement without a dollar. *)
Lemma replace_scan_char (c : ascii) (r : string) :
  mem "$" r = false ->
  forall s before,
    replace_scan (String.length s) (String c EmptyString) r before s = subst_char c r s.
Proof.
  intros Hr. induction s as [|x s IH]; intros before; [reflexivity|].
  cbn [replace_scan String.length]. rewrite prefix_char.
  unfold subst_char. cbn [flat_map_chars].
  destruct (Ascii.eqb x c).
  - rewrite GetSubstitution_no_dollar by assumption. f_equal.
    cbn [drop]. apply IH.
  - cbn [append]. f_equal. apply IH.
Qed.

Lemma replace_literal_char (c : ascii) (r s : string) :
  mem "$" r = false ->
  replace_literal (String c EmptyString) r s = subst_char c r s.
Proof. intros Hr. unfold replace_literal. now apply replace_scan_char. Qed.

(** ** escapeHtml *)

Lemma subst_char_append (c : ascii) (e a b : string) :
  subst_char c e (a ++ b) = subst_char c e a ++ subst_char c e b.
Proof. apply flat_map_chars_append. Qed.


Lemma escapeHtml_five (s : string) : escapeHtml s = five_replacements s.
Proof.
  unfold escapeHtml, five_replacements.
  now rewrite !replace_literal_char by reflexivity.
Qed.

Lemma five_replacements_append (a b : string) :
  five_replacements (a ++ b) = five_replacements a ++ five_replacements b.
Proof. unfold five_replacements. now rewrite !subst_char_append. Qed.

Lemma five_replacements_char (x : ascii) :
  five_replacements (String x EmptyString) = escape_char x.
Proof.
  unfold escape_char.
  destruct (Ascii.eqb_spec x "&") as [->|H1]; [reflexivity|].
  destruct (Ascii.eqb_spec x "<") as [->|H2]; [reflexivity|].
  destruct (Ascii.eqb_spec x ">") as [->|H3]; [reflexivity|].
  destruct (Ascii.eqb_spec x dquote) as [->|H4]; [reflexivity|].
  destruct (Ascii.eqb_spec x "'") as [->|H5]; [reflexivity|].
  apply Ascii.eqb_neq in H1, H2, H3, H4, H5.
  unfold five_replacements, subst_char. cbn [flat_map_chars append].
  rewrite H1. cbn [flat_map_chars append].
  rewrite H2. cbn [flat_map_chars append].
  rewrite H3. cbn [flat_map_chars append].
  rewrite H4. cbn [flat_map_chars append].
  rewrite H5. reflexivity.
Qed.

Lemma escapeHtml_one_pass (s : string) : escapeHtml s = flat_map_chars escape_char s.
Proof.
  rewrite escapeHtml_five.
  induction s as [|x s IH]; [reflexivity|].
  change (String x s) with (String x EmptyString ++ s).
  rewrite five_replacements_append, five_replacements_char, IH.
  reflexivity.
Qed.

Lemma escape_char_safe (x c : ascii) :
  In c ["<"; ">"; dquote; "'"]%char -> mem c (escape_char x) = false.
Proof.
  intros Hc. unfold escape_char.
  destruct (Ascii.eqb_spec x "&") as [->|H1];
    [simpl in Hc; decompose [or] Hc; subst; (reflexivity || contradiction)|].
  destruct (Ascii.eqb_spec x "<") as [->|H2];
    [simpl in Hc; decompose [or] Hc; subst; (reflexivity || contradiction)|].
  destruct (Ascii.eqb_spec x ">") as [->|H3];
    [simpl in Hc; decompose [or] Hc; subst; (reflexivity || contradiction)|].
  destruct (Ascii.eqb_spec x dquote) as [->|H4];
    [simpl in Hc; decompose [or] Hc; subst; (reflexivity || contradiction)|].
  destruct (Ascii.eqb_spec x "'") as [->|H5];
    [simpl in Hc; decompose [or] Hc; subst; (reflexivity || contradiction)|].
  cbn [mem]. rewrite orb_false_r. apply Ascii.eqb_neq.
  simpl in Hc; decompose [or] Hc; subst; (assumption || contradiction).
Qed.


Lemma ampersands_entity (e rest : string) :
  In e entities ->
  ampersands_start_entities rest -> ampersands_start_entities (e ++ rest).
Proof.
  intros He Hrest i Hi.
  assert (H0 : prefix e (e ++ rest) = true) by apply prefix_append.
  simpl in He. decompose [or] He; try contradiction; subst e;
    repeat (destruct i as [|i];
            [first [ discriminate Hi
                   | eexists; split; [|exact H0]; simpl; tauto ] |]);
    apply Hrest; exact Hi.
Qed.

Lemma ampersands_other (x : ascii) (rest : string) :
  x <> "&"%char ->
  ampersands_start_entities rest -> ampersands_start_entities (String x rest).
Proof.
  intros Hx Hrest [|i] Hi.
  - simpl in Hi. congruence.
  - apply Hrest. exact Hi.
Qed.

Lemma escape_char_cases (x : ascii) :
  In (escape_char x) entities
  \/ (escape_char x = String x EmptyString /\ x <> "&"%char).
Proof.
  unfold escape_char.
  destruct (Ascii.eqb_spec x "&"); [left; simpl; tauto|].
  destruct (Ascii.eqb_spec x "<"); [left; simpl; tauto|].
  destruct (Ascii.eqb_spec x ">"); [left; simpl; tauto|].
  destruct (Ascii.eqb_spec x dquote); [left; simpl; tauto|].
  destruct (Ascii.eqb_spec x "'"); [left; simpl; tauto|].
  right. split; [reflexivity | assumption].
Qed.

Lemma escapeHtml_no_markup (s : string) (c : ascii) :
  In c ["<"; ">"; dquote; "'"]%char -> mem c (escapeHtml s) = false.
Proof.
  intros Hc. rewrite escapeHtml_one_pass.
  induction s as [|x s IH]; [reflexivity|].
  cbn [flat_map_chars]. rewrite mem_append, IH, escape_char_safe by assumption.
  reflexivity.
Qed.

(** C2. For every text, the output of escapeHtml holds none of the
    characters [<], [>], the double quote and the single quote, and
    wherever it holds an ampersand one of the five entities [&amp;],
    [&lt;], [&gt;], [&quot;], [&#039;] starts. *)
Theorem escapeHtml_output_escaped (unsafe : string) :
  (forall c, In c ["<"; ">"; dquote; "'"]%char -> mem c (escapeHtml unsafe) = false)
  /\ ampersands_start_entities (escapeHtml unsafe).
Proof.
  split; [intros c; apply escapeHtml_no_markup|].
  rewrite escapeHtml_one_pass.
  induction unsafe as [|x s IH].
  - intros i Hi. destruct i; discriminate Hi.
  - cbn [flat_map_chars].
    destruct (escape_char_cases x) as [He|[-> Hx]].
    + now apply ampersands_entity.
    + now apply ampersands_other.
Qed.

(** C3. escapeHtml is defined on every text, the empty one included, and
    is the five replacements of a character by its entity, the ampersand
    first and then [<], [>], the double quote and the single quote; as the
    ampersand goes first, every character of the input becomes its own
    entity and no entity is escaped again. *)
Theorem escapeHtml_five_replacements (unsafe : string) :
  escapeHtml unsafe
  = subst_char "'" "&#039;"
      (subst_char dquote "&quot;"
        (subst_char ">" "&gt;"
          (subst_char "<" "&lt;"
            (subst_char "&" "&amp;" unsafe))))
  /\ escapeHtml unsafe = flat_map_chars escape_char unsafe
  /\ escapeHtml EmptyString = EmptyString.
Proof.
  split; [apply escapeHtml_five|].
  split; [apply escapeHtml_one_pass | reflexivity].
Qed.

(** The order matters: with the ampersand last, the entity of [<] would be
    escaped a second time. *)
Example ampersand_last_escapes_twice :
  subst_char "&" "&amp;" (subst_char "<" "&lt;" "a<b") = "a&amp;lt;b"
  /\ escapeHtml "a<b" = "a&lt;b".
Proof. split; reflexivity. Qed.

(** ** Occurrences of a text *)

Lemma prefix_cons (x y : ascii) (p s : string) :
  prefix (String x p) (String y s) = true <-> x = y /\ prefix p s = true.
Proof.
  simpl. destruct (ascii_dec x y) as [->|n]; split; try tauto; try discriminate.
Qed.

(** A prefix of [a ++ b] lies within [a] or runs through all of [a]. *)
Lemma prefix_append_cases (p a b : string) :
  prefix p (a ++ b) = true ->
  prefix p a = true \/ exists p2, p = a ++ p2 /\ prefix p2 b = true.
Proof.
  revert p; induction a as [|x a IH]; intros p H.
  - right. exists p. split; [reflexivity | exact H].
  - destruct p as [|y p]; [left; reflexivity|].
    cbn [append] in H. apply prefix_cons in H as [-> H].
    destruct (IH _ H) as [Hl | [p2 [-> Hr]]].
    + left. apply prefix_cons. tauto.
    + right. exists p2. split; [reflexivity | exact Hr].
Qed.

Lemma last_char_mem (z : ascii) (r : string) : last_char r = Some z -> mem z r = true.
Proof.
  induction r as [|x r IH]; [discriminate|].
  cbn [last_char mem]. destruct r as [|y r].
  - intros [= ->]. now rewrite Ascii.eqb_refl.
  - intros H. rewrite (IH H). apply orb_true_r.
Qed.

Lemma occurs_cons (p : string) (c : ascii) (s : string) :
  occurs p (String c s) = prefix p (String c s) || occurs p s.
Proof. reflexivity. Qed.

Lemma occurs_drop (p s : string) (k : nat) :
  occurs p s = false -> prefix p (drop k s) = false.
Proof.
  revert s; induction k as [|k IH]; intros s H.
  - destruct s; cbn [occurs drop] in *; now apply orb_false_iff in H.
  - destruct s as [|c s]; cbn [drop].
    + cbn [occurs] in H. now apply orb_false_iff in H.
    + apply IH. rewrite occurs_cons in H. now apply orb_false_iff in H.
Qed.

Lemma drop_drop (k m : nat) (s : string) : drop k (drop m s) = drop (k + m) s.
Proof.
  revert s; induction m as [|m IH]; intros s.
  - now rewrite Nat.add_0_r.
  - rewrite Nat.add_succ_r. destruct s as [|c s]; cbn [drop].
    + now destruct k.
    + apply IH.
Qed.

(** A text that ends outside the alphabet of [p] shields what follows it:
    no occurrence of [p] runs over its end. *)
Lemma occurs_append_shield (p r t : string) (z : ascii) :
  last_char r = Some z -> mem z p = false ->
  occurs p r = false -> occurs p t = false ->
  occurs p (r ++ t) = false.
Proof.
  intros Hz Hp. induction r as [|x r IH]; [discriminate|].
  intros Hr Ht. rewrite occurs_cons in Hr. apply orb_false_iff in Hr as [Hr1 Hr2].
  cbn [append]. rewrite occurs_cons. apply orb_false_iff. split.
  - destruct (prefix p (String x (r ++ t))) eqn:E; [exfalso | reflexivity].
    change (String x (r ++ t)) with (String x r ++ t) in E.
    apply prefix_append_cases in E as [E | [p2 [-> _]]]; [congruence|].
    rewrite mem_append, (last_char_mem _ _ Hz) in Hp. discriminate.
  - destruct r as [|y r]; [exact Ht|].
    apply IH; assumption.
Qed.

(** ** A pass with a replacement that holds no pattern *)

Section Pass.

Variables (q r : string).
Hypothesis q_not_empty : q <> EmptyString.
Hypothesis r_pattern_free : pattern_free r = true.

Lemma replace_scan_S_match (n : nat) (before s : string) :
  s <> EmptyString -> prefix q s = true ->
  replace_scan (S n) q r before s
  = r ++ replace_scan n q r (before ++ q) (drop (String.length q) s).
Proof.
  intros Hs Hp. destruct s as [|c s]; [congruence|].
  cbn [replace_scan]. rewrite Hp.
  now rewrite GetSubstitution_pattern_free.
Qed.

Lemma replace_scan_S_step (n : nat) (before : string) (c : ascii) (s : string) :
  prefix q (String c s) = false ->
  replace_scan (S n) q r before (String c s)
  = String c (replace_scan n q r (before ++ String c EmptyString) s).
Proof. intros Hp. cbn [replace_scan]. now rewrite Hp. Qed.

(** Where the pattern does not occur the pass changes nothing. *)
Lemma replace_scan_absent (n : nat) (before s : string) :
  occurs q s = false -> replace_scan n q r before s = s.
Proof.
  revert before s; induction n as [|n IH]; intros before s H; [reflexivity|].
  destruct s as [|c s]; [reflexivity|].
  rewrite occurs_cons in H. apply orb_false_iff in H as [H1 H2].
  rewrite replace_scan_S_step by assumption. f_equal. now apply IH.
Qed.

(** The text scanned so far plays no part. *)
Lemma replace_scan_before (n : nat) (before before' s : string) :
  replace_scan n q r before s = replace_scan n q r before' s.
Proof.
  revert before before' s; induction n as [|n IH]; intros before before' s; [reflexivity|].
  destruct s as [|c s]; [reflexivity|].
  cbn [replace_scan]. destruct (prefix q (String c s)).
  - rewrite !GetSubstitution_pattern_free by assumption. f_equal. apply IH.
  - f_equal. apply IH.
Qed.

(** What the output starts with, up to the first [<], the subject starts
    with too, when the replacement starts with [<]. *)
Lemma prefix_replace_scan (r' : string) (n : nat) :
  r = String "<" r' ->
  forall p before s,
    mem "<" p = false ->
    prefix p (replace_scan n q r before s) = true -> prefix p s = true.
Proof.
  intros Hr. induction n as [|n IH]; intros p before s Hp H; [exact H|].
  destruct s as [|c s]; [exact H|].
  destruct p as [|y p]; [reflexivity|].
  cbn [mem] in Hp. apply orb_false_iff in Hp as [Hy Hp].
  destruct (prefix q (String c s)) eqn:E.
  - rewrite replace_scan_S_match in H by (assumption || discriminate).
    rewrite Hr in H. cbn [append] in H. apply prefix_cons in H as [-> _].
    discriminate.
  - rewrite replace_scan_S_step in H by assumption.
    apply prefix_cons in H as [-> H]. apply prefix_cons. split; [reflexivity|].
    now apply IH in H.
Qed.

(** After the pass, a text [p] without [<] and [>] occurs nowhere, when
    it does not occur in the replacement, the replacement runs from a [<]
    to a [>], and in the subject [p] starts only where [q] matches. *)
Lemma occurs_replace_scan (p r' : string) :
  r = String "<" r' -> last_char r = Some ">"%char ->
  mem "<" p = false -> mem ">" p = false -> p <> EmptyString ->
  occurs p r = false ->
  forall n before s,
    String.length s <= n ->
    (forall k, prefix p (drop k s) = true -> prefix q (drop k s) = true) ->
    occurs p (replace_scan n q r before s) = false.
Proof.
  intros Hr Hlast Hlt Hgt Hp Hpr.
  induction n as [|n IH]; intros before s Hn Hs.
  - destruct s; [|simpl in Hn; lia].
    cbn. destruct p; [congruence | reflexivity].
  - destruct s as [|c s].
    + cbn. destruct p; [congruence | reflexivity].
    + destruct (prefix q (String c s)) eqn:E.
      * rewrite replace_scan_S_match by (assumption || discriminate).
        apply occurs_append_shield with (z := ">"%char); try assumption.
        apply IH.
        -- rewrite length_drop. simpl in Hn. destruct q; [congruence|]. simpl. lia.
        -- intros k Hk. rewrite drop_drop in *. now apply Hs.
      * rewrite replace_scan_S_step by assumption.
        rewrite occurs_cons. apply orb_false_iff. split.
        -- destruct (prefix p (String c (replace_scan n q r (before ++ String c EmptyString) s)))
             eqn:E2; [exfalso | reflexivity].
           destruct p as [|y p]; [congruence|].
           apply prefix_cons in E2 as [-> E2].
           cbn [mem] in Hlt. apply orb_false_iff in Hlt as [_ Hlt].
           apply (prefix_replace_scan r' n Hr) in E2; [|assumption].
           assert (E3 : prefix (String c p) (drop 0 (String c s)) = true)
             by (apply prefix_cons; tauto).
           apply Hs in E3. cbn [drop] in E3. congruence.
        -- apply IH; [simpl in Hn; lia|].
           intros k Hk. apply (Hs (S k)). exact Hk.
Qed.

End Pass.

(** ** emojify *)




Lemma forall_chars_append (f : ascii -> bool) (a b : string) :
  forall_chars f (a ++ b) = forall_chars f a && forall_chars f b.
Proof.
  induction a as [|x a IH]; [reflexivity|].
  cbn [append forall_chars]. now rewrite IH, andb_assoc.
Qed.

Lemma forall_chars_mem (f : ascii -> bool) (c : ascii) (s : string) :
  forall_chars f s = true -> f c = false -> mem c s = false.
Proof.
  intros Hs Hc. induction s as [|x s IH]; [reflexivity|].
  cbn [forall_chars mem] in *. apply andb_true_iff in Hs as [Hx Hs].
  rewrite (IH Hs), orb_false_r.
  destruct (Ascii.eqb_spec x c) as [->|]; [congruence | reflexivity].
Qed.

Lemma RegExp_literal (shortcode : string) :
  literal_source shortcode = true ->
  RegExp (":" ++ shortcode ++ ":") = Value (":" ++ shortcode ++ ":").
Proof.
  intros H. unfold RegExp, literal_source in *.
  change (":" ++ shortcode ++ ":") with (String ":" (shortcode ++ ":")).
  cbn [String.eqb negb andb forall_chars].
  rewrite forall_chars_append, H. reflexivity.
Qed.

Lemma emojify_pass_literal (content : string) (emoji : Emoji.t) :
  literal_source (Emoji.shortcode emoji) = true ->
  emojify_pass content emoji
  = Value (replace_literal (shortcode_pattern emoji) (emoji_img emoji) content).
Proof.
  intros H. unfold emojify_pass. rewrite RegExp_literal by assumption. reflexivity.
Qed.

Lemma emojify_Some (content : string) (l : list Emoji.t) :
  emojify content (Some l) = foldM emojify_pass l content.
Proof. destruct l; reflexivity. Qed.

Lemma foldM_app {A B : Type} (f : B -> A -> outcome B) (l1 l2 : list A) (b : B) :
  foldM f (l1 ++ l2)%list b = (b' <- foldM f l1 b ;; foldM f l2 b').
Proof.
  revert b; induction l1 as [|a l1 IH]; intros b; [reflexivity|].
  cbn [foldM List.app]. destruct (f b a); cbn [bind]; [apply IH | reflexivity | reflexivity].
Qed.

Lemma mem_dollar_escape_char (x : ascii) :
  mem "$" (escape_char x) = Ascii.eqb x "$".
Proof.
  unfold escape_char.
  destruct (Ascii.eqb_spec x "&") as [->|]; [reflexivity|].
  destruct (Ascii.eqb_spec x "<") as [->|]; [reflexivity|].
  destruct (Ascii.eqb_spec x ">") as [->|]; [reflexivity|].
  destruct (Ascii.eqb_spec x dquote) as [->|]; [reflexivity|].
  destruct (Ascii.eqb_spec x "'") as [->|]; [reflexivity|].
  cbn [mem]. apply orb_false_r.
Qed.

Lemma mem_dollar_escapeHtml (s : string) : mem "$" (escapeHtml s) = mem "$" s.
Proof.
  rewrite escapeHtml_one_pass. induction s as [|x s IH]; [reflexivity|].
  cbn [flat_map_chars mem]. now rewrite mem_append, IH, mem_dollar_escape_char.
Qed.

Lemma literal_source_no_dollar (s : string) :
  literal_source s = true -> mem "$" s = false.
Proof.
  intros H. unfold literal_source in H.
  now apply (forall_chars_mem _ "$"%char) in H.
Qed.

Lemma emoji_img_no_dollar (emoji : Emoji.t) :
  literal_source (Emoji.shortcode emoji) = true ->
  mem "$" (Emoji.url emoji) = false ->
  mem "$" (emoji_img emoji) = false.
Proof.
  intros Hs Hu. unfold emoji_img, emoji_template.
  cbn [fill piece_text]. rewrite !mem_append, !mem_dollar_escapeHtml, Hu.
  rewrite (literal_source_no_dollar _ Hs). reflexivity.
Qed.

Lemma last_char_append (a b : string) :
  b <> EmptyString -> last_char (a ++ b) = last_char b.
Proof.
  intros Hb. induction a as [|x a IH]; [reflexivity|].
  cbn [append last_char]. rewrite IH.
  destruct (a ++ b) eqn:E; [|reflexivity].
  destruct a; [simpl in E; congruence | discriminate].
Qed.

Lemma append_not_empty_r (a b : string) : b <> EmptyString -> a ++ b <> EmptyString.
Proof. destruct a; [trivial | discriminate]. Qed.

Lemma emoji_img_shape (emoji : Emoji.t) :
  (exists r', emoji_img emoji = String "<" r')
  /\ last_char (emoji_img emoji) = Some ">"%char.
Proof.
  unfold emoji_img, emoji_template. cbn [fill piece_text]. split.
  - eexists. reflexivity.
  - rewrite append_nil_r.
    do 4 rewrite last_char_append by (repeat apply append_not_empty_r; discriminate).
    reflexivity.
Qed.

Lemma shortcode_pattern_not_empty (emoji : Emoji.t) : shortcode_pattern emoji <> EmptyString.
Proof. discriminate. Qed.

Lemma count_occ_unfold (p s : string) :
  count_occ p s
  = (if prefix p s then 1 else 0)
    + match s with EmptyString => 0 | String _ s' => count_occ p s' end.
Proof. destruct s; reflexivity. Qed.

Lemma count_occ_end (p a : string) : 1 <= count_occ p (a ++ p).
Proof.
  induction a as [|x a IH].
  - cbn [append]. rewrite count_occ_unfold.
    replace (prefix p p) with true; [lia|].
    symmetry. rewrite <- (append_nil_r p) at 2. apply prefix_append.
  - cbn [append count_occ]. lia.
Qed.

Lemma prefix_short (p u v : string) :
  String.length p <= String.length u ->
  prefix p (u ++ v) = true -> prefix p u = true.
Proof.
  intros Hl H. apply prefix_append_cases in H as [H | [p2 [-> _]]]; [exact H|].
  rewrite length_append in Hl. destruct p2; [|simpl in Hl; lia].
  rewrite append_nil_r. rewrite <- (append_nil_r u) at 2. apply prefix_append.
Qed.

(** The pass replaces the leftmost occurrence and goes on behind it. *)
Lemma replace_literal_first (p r a b : string) :
  p <> EmptyString -> pattern_free r = true ->
  count_occ p (a ++ p) = 1 ->
  replace_literal p r (a ++ p ++ b) = a ++ r ++ replace_literal p r b.
Proof.
  intros Hp Hr. unfold replace_literal. generalize EmptyString at 1 as before.
  induction a as [|x a IH]; intros before Hc.
  - cbn [append]. rewrite replace_scan_match by (assumption || apply prefix_append).
    rewrite GetSubstitution_pattern_free by assumption.
    rewrite drop_length_append. f_equal.
    now apply replace_scan_before.
  - cbn [append count_occ] in Hc.
    pose proof (count_occ_end p a) as He.
    destruct (prefix p (String x (a ++ p))) eqn:E; [lia|].
    cbn [append]. rewrite replace_scan_step.
    + f_equal. apply IH. lia.
    + destruct (prefix p (String x (a ++ p ++ b))) eqn:E2; [|reflexivity].
      change (String x (a ++ p ++ b)) with (String x a ++ p ++ b) in E2.
      rewrite <- append_assoc in E2. apply prefix_short in E2.
      * cbn [append] in E2. congruence.
      * rewrite length_append. lia.
Qed.

Lemma foldM_emojify_value (l : list Emoji.t) :
  Forall (fun emoji => literal_source (Emoji.shortcode emoji) = true) l ->
  forall content, exists out, foldM emojify_pass l content = Value out.
Proof.
  induction 1 as [|e l He _ IH]; intros content.
  - exists content. reflexivity.
  - cbn [foldM]. rewrite emojify_pass_literal by assumption. cbn [bind]. apply IH.
Qed.

Lemma shortcode_pattern_mem (c : ascii) (emoji : Emoji.t) :
  c <> ":"%char -> mem c (Emoji.shortcode emoji) = false ->
  mem c (shortcode_pattern emoji) = false.
Proof.
  intros Hc Hs. unfold shortcode_pattern.
  change (":" ++ Emoji.shortcode emoji ++ ":") with (String ":" (Emoji.shortcode emoji ++ ":")).
  cbn [mem]. rewrite mem_append, Hs. cbn [mem].
  assert (E : Ascii.eqb ":" c = false) by (apply Ascii.eqb_neq; congruence).
  rewrite E. reflexivity.
Qed.

(** After a pass whose image element does not hold [p], the text [p]
    (without [<] and [>]) occurs nowhere, provided that before the pass it
    started only where the pattern of the pass matches. *)
Lemma emojify_pass_clears (p content : string) (emoji : Emoji.t) :
  literal_source (Emoji.shortcode emoji) = true ->
  mem "$" (Emoji.url emoji) = false ->
  occurs p (emoji_img emoji) = false ->
  mem "<" p = false -> mem ">" p = false -> p <> EmptyString ->
  (forall k, prefix p (drop k content) = true ->
             prefix (shortcode_pattern emoji) (drop k content) = true) ->
  exists out, emojify_pass content emoji = Value out /\ occurs p out = false.
Proof.
  intros Hlit Hdollar Himg Hlt Hgt Hp Hstart.
  rewrite emojify_pass_literal by assumption. eexists. split; [reflexivity|].
  destruct (emoji_img_shape emoji) as [[r' Hr'] Hlast].
  unfold replace_literal.
  apply occurs_replace_scan with (r' := r'); try assumption.
  - apply shortcode_pattern_not_empty.
  - apply no_dollar_pattern_free. now apply emoji_img_no_dollar.
  - lia.
Qed.

Lemma emojify_passes_keep_clear (p : string) (mid : list Emoji.t) :
  mem "<" p = false -> mem ">" p = false -> p <> EmptyString ->
  Forall (fun emoji => literal_source (Emoji.shortcode emoji) = true) mid ->
  Forall (fun emoji => mem "$" (Emoji.url emoji) = false
                       /\ occurs p (emoji_img emoji) = false) mid ->
  forall content, occurs p content = false ->
    exists out, foldM emojify_pass mid content = Value out /\ occurs p out = false.
Proof.
  intros Hlt Hgt Hp Hlit Htame. induction mid as [|e mid IH]; intros content Hc.
  - exists content. split; [reflexivity | assumption].
  - inversion Hlit as [|? ? He Hlit']; subst. inversion Htame as [|? ? [Hd Hi] Htame']; subst.
    destruct (emojify_pass_clears p content e) as [c1 [E1 Hc1]]; try assumption.
    { intros k Hk. rewrite (occurs_drop p content k Hc) in Hk. discriminate. }
    cbn [foldM]. rewrite E1. cbn [bind]. now apply IH.
Qed.

(** C6.  emojify does not replace every [:shortcode:] by an image element
    whose src is the sanitized URL.  It builds that element (lines 23-28)
    and hands it to [replace] as the replacement text, in which a dollar
    starts a pattern.  For the content [:a:] and the pair of [a] and
    [https://x/a.png?w=$&h=1] the sanitized URL holds [$&amp;], whose head
    [$&] gives way to the matched text: the output is not the image
    element, does not hold the sanitized URL, and still holds [:a:]. *)
Theorem emojify_dollar_url :
  exists out,
    emojify ":a:"
      (Some [{| Emoji.shortcode := "a"; Emoji.url := "https://x/a.png?w=$&h=1" |}])
    = Value out
    /\ out <> fill (emoji_template (escapeHtml "https://x/a.png?w=$&h=1") (escapeHtml "a"))
    /\ out = fill (emoji_template "https://x/a.png?w=:a:amp;h=1" "a")
    /\ occurs (escapeHtml "https://x/a.png?w=$&h=1") out = false
    /\ occurs ":a:" out = true.
Proof.
  eexists. split; [reflexivity|]. split; [|repeat split; reflexivity].
  apply String.eqb_neq. reflexivity.
Qed.

(** X17.  For a pair whose shortcode holds no syntax character of regular
    expressions (the shortcodes of the server are made of letters, digits
    and underscores) and whose image element, as [replace] reads it, holds
    no dollar that starts a pattern, emojify runs one pass for the pair
    and goes on with the rest of the collection; the pass leaves a content
    without [:shortcode:] as it is, and replaces the leftmost
    [:shortcode:] by the image element (src the sanitized URL, alt the
    sanitized shortcode, loading lazy) and goes on behind it.  A URL
    without dollar gives such an image element.  An absent or empty
    collection returns the content.  For the content [Hi :wave: there] and
    the pair of [wave] and [https://x/w.png] the output holds one image
    element, which names that URL and the alt text [wave], and the text
    [:wave:] no more. *)
Theorem emojify_replaces_shortcodes (emoji : Emoji.t) (rest : list Emoji.t) :
  literal_source (Emoji.shortcode emoji) = true ->
  pattern_free (emoji_img emoji) = true ->
  let p := shortcode_pattern emoji in
  let img := emoji_img emoji in
  let pass := replace_literal p img in
  (forall content, emojify content (Some (emoji :: rest)) = emojify (pass content) (Some rest))
  /\ (forall content, occurs p content = false -> pass content = content)
  /\ (forall a b, count_occ p (a ++ p) = 1 -> pass (a ++ p ++ b) = a ++ img ++ pass b)
  /\ img = fill (emoji_template (escapeHtml (Emoji.url emoji))
                   (escapeHtml (Emoji.shortcode emoji)))
  /\ (forall other,
        literal_source (Emoji.shortcode other) = true ->
        mem "$" (Emoji.url other) = false ->
        pattern_free (emoji_img other) = true)
  /\ (forall content,
        emojify content None = Value content /\ emojify content (Some []) = Value content)
  /\ (exists out,
        emojify "Hi :wave: there"
          (Some [{| Emoji.shortcode := "wave"; Emoji.url := "https://x/w.png" |}])
        = Value out
        /\ count_occ "<img" out = 1
        /\ occurs (tq "<img src=~https://x/w.png~ alt=~wave~") out = true
        /\ occurs "lazy" out = true
        /\ occurs ":wave:" out = false).
Proof.
  intros Hlit Hfree p img pass.
  split; [|split; [|split; [|split; [|split; [|split]]]]].
  - intros content. rewrite !emojify_Some. cbn [foldM].
    rewrite emojify_pass_literal by assumption. reflexivity.
  - intros content H. unfold pass, replace_literal. now apply replace_scan_absent.
  - intros a b H. unfold pass. apply replace_literal_first; try assumption.
    apply shortcode_pattern_not_empty.
  - reflexivity.
  - intros other Ho Hd. apply no_dollar_pattern_free. now apply emoji_img_no_dollar.
  - intros content. split; reflexivity.
  - eexists. split; [reflexivity|]. repeat split; reflexivity.
Qed.

(** The pass for a pair whose URL holds dollars that start no pattern, on
    any content. *)
Lemma emojify_replaces_shortcodes_witness :
  let wave := {| Emoji.shortcode := "wave"; Emoji.url := "https://x/$1.png?price=5$" |} in
  literal_source "wave" = true
  /\ pattern_free (emoji_img wave) = true
  /\ forall a b,
       count_occ ":wave:" (a ++ ":wave:") = 1 ->
       replace_literal ":wave:" (emoji_img wave) (a ++ ":wave:" ++ b)
       = a ++ emoji_img wave ++ replace_literal ":wave:" (emoji_img wave) b.
Proof.
  intros wave. split; [reflexivity|]. split; [reflexivity|].
  exact (proj1 (proj2 (proj2 (emojify_replaces_shortcodes wave [] eq_refl eq_refl)))).
Defined.

(** C7, as stated, fails: a second pass for the same shortcode finds the
    text [:shortcode:] again when the URL of the first pair holds it. *)
Lemma emojify_duplicate_counterexample :
  let first := {| Emoji.shortcode := "a"; Emoji.url := "https://x/:a:.png" |} in
  let second := {| Emoji.shortcode := "a"; Emoji.url := "https://x/b.png" |} in
  emojify ":a:" (Some [first; second]) <> emojify ":a:" (Some [first]).
Proof.
  intros first second H. vm_compute in H. discriminate H.
Qed.

(** C7, amended.  emojify runs one pass per pair, in the order of the
    collection.  When all shortcodes are free of syntax characters, a
    shortcode without [<] and [>] stands in two pairs, and the first of
    these pairs and every pair between the two have a URL without dollar
    and an image element that does not hold [:shortcode:], the pass of the
    second pair changes nothing: the output is that of the collection
    without the second pair. *)
Theorem emojify_duplicate_shortcode
    (content : string) (pre mid post : list Emoji.t) (first second : Emoji.t) :
  Forall (fun emoji => literal_source (Emoji.shortcode emoji) = true)
    (pre ++ first :: mid ++ second :: post)%list ->
  Emoji.shortcode second = Emoji.shortcode first ->
  mem "<" (Emoji.shortcode first) = false ->
  mem ">" (Emoji.shortcode first) = false ->
  Forall (fun emoji => mem "$" (Emoji.url emoji) = false
                       /\ occurs (shortcode_pattern first) (emoji_img emoji) = false)
    (first :: mid) ->
  (forall c emoji l,
      emojify c (Some (emoji :: l))
      = (c' <- emojify_pass c emoji ;; emojify c' (Some l)))
  /\ exists out,
       emojify content (Some (pre ++ first :: mid ++ second :: post)%list) = Value out
       /\ emojify content (Some (pre ++ first :: mid ++ post)%list) = Value out.
Proof.
  intros Hlit Hsame Hlt Hgt Htame. split.
  { intros c emoji l. rewrite emojify_Some. cbn [foldM].
    destruct (emojify_pass c emoji); cbn [bind]; try reflexivity.
    now rewrite emojify_Some. }
  set (p := shortcode_pattern first) in *.
  assert (Hp_lt : mem "<" p = false) by (apply shortcode_pattern_mem; [discriminate | assumption]).
  assert (Hp_gt : mem ">" p = false) by (apply shortcode_pattern_mem; [discriminate | assumption]).
  assert (Hp : p <> EmptyString) by apply shortcode_pattern_not_empty.
  apply Forall_app in Hlit as [Hpre Hlit].
  inversion Hlit as [|? ? Hfirst Hlit']; subst.
  apply Forall_app in Hlit' as [Hmid Hlit''].
  inversion Hlit'' as [|? ? Hsecond Hpost]; subst.
  inversion Htame as [|? ? [Hd1 Hi1] Htame']; subst.
  rewrite !emojify_Some, !foldM_app.
  destruct (foldM_emojify_value pre Hpre content) as [c0 ->]. cbn [bind foldM].
  destruct (emojify_pass_clears p c0 first) as [c1 [-> Hc1]]; try assumption.
  { intros k Hk. exact Hk. }
  cbn [bind]. rewrite !foldM_app.
  destruct (emojify_passes_keep_clear p mid Hp_lt Hp_gt Hp Hmid Htame' c1 Hc1)
    as [c2 [-> Hc2]].
  cbn [bind foldM].
  rewrite emojify_pass_literal by assumption.
  replace (shortcode_pattern second) with p
    by (unfold p, shortcode_pattern; now rewrite Hsame).
  unfold replace_literal. rewrite replace_scan_absent by assumption. cbn [bind].
  destruct (foldM_emojify_value post Hpost c2) as [out ->].
  exists out. split; reflexivity.
Qed.

(** A collection in which [wave] stands twice, with other pairs around. *)
Lemma emojify_duplicate_shortcode_witness :
  let wave := {| Emoji.shortcode := "wave"; Emoji.url := "https://x/w.png" |} in
  let cat := {| Emoji.shortcode := "cat"; Emoji.url := "https://x/c.png" |} in
  let wave' := {| Emoji.shortcode := "wave"; Emoji.url := "https://x/other.png" |} in
  exists out,
    emojify ":wave::cat: :wave:" (Some [cat; wave; cat; wave'; cat]) = Value out
    /\ emojify ":wave::cat: :wave:" (Some [cat; wave; cat; cat]) = Value out.
Proof.
  intros wave cat wave'.
  apply (emojify_duplicate_shortcode ":wave::cat: :wave:" [cat] [cat] [cat] wave wave').
  - repeat constructor.
  - reflexivity.
  - reflexivity.
  - reflexivity.
  - repeat constructor.
Defined.

(** ** renderComments *)



Lemma mapM_Forall2 {A B : Type} (f : A -> outcome B) (l : list A) (bs : list B) :
  Forall2 (fun a b => f a = Value b) l bs -> mapM f l = Value bs.
Proof.
  induction 1 as [|a b l bs Hab _ IH]; [reflexivity|].
  cbn [mapM]. rewrite Hab, IH. reflexivity.
Qed.

(** ** The attachments of a reply *)

Lemma fold_left_append_join {A : Type} (f : A -> string) (l : list A) (start : string) :
  fold_left (fun acc a => acc ++ f a) l start = start ++ join (map f l).
Proof.
  revert start; induction l as [|a l IH]; intros start; cbn [fold_left map join].
  - now rewrite append_nil_r.
  - now rewrite IH, append_assoc.
Qed.

Lemma attachments_Some (l : list Media.t) :
  l <> [] ->
  attachments (Some l)
  = attachments_open ++ join (map (fun media => fill (media_template media)) l)
      ++ attachments_close.
Proof.
  intros Hl. destruct l as [|m l]; [congruence|].
  unfold attachments. rewrite fold_left_append_join. now rewrite append_assoc.
Qed.

(** ** The loader *)

Lemma load_try_page `{Platform} (host postId lang : string) (net : fetch_result) (pg : page) :
  fst (load_try host postId lang net pg) = pg
  \/ (test_host host = true /\ test_post_id postId = true
      /\ fst (load_try host postId lang net pg) = send_request (context_url host postId) pg).
Proof.
  unfold load_try.
  destruct (test_host host); [|left; reflexivity].
  destruct (test_post_id postId); [|left; reflexivity].
  right. split; [reflexivity|]. split; [reflexivity|].
  destruct net as [e | ok status b]; [reflexivity|].
  destruct ok; [|reflexivity].
  destruct b; reflexivity.
Qed.

Lemma load_try_keeps `{Platform} (host postId lang : string) (net : fetch_result) (pg : page) :
  let pg1 := fst (load_try host postId lang net pg) in
  commentsDiv pg1 = commentsDiv pg
  /\ commentsList pg1 = commentsList pg
  /\ console pg1 = console pg.
Proof.
  destruct (load_try_page host postId lang net pg) as [-> | [_ [_ ->]]];
    repeat split; reflexivity.
Qed.

(** With the list element in the page, a run of the loader settles: it
    writes what the [try] block computed, or logs and writes the error
    message. *)
Lemma loadMastodonComments_run `{Platform}
    (host postId lang : string) (net : fetch_result) (pg : page) (old : string) :
  commentsList pg = Some old ->
  loadMastodonComments host postId lang net pg
  = let pg1 := fst (load_try host postId lang net pg) in
    match snd (load_try host postId lang net pg) with
    | Value html => Settled (with_commentsList html pg1)
    | Throws error =>
        Settled (with_commentsList error_html (console_error (LogLoadError error) pg1))
    | Unmodelled => OutOfModel
    end.
Proof.
  intros Hold. unfold loadMastodonComments.
  destruct (load_try_keeps host postId lang net pg) as [_ [Hl _]].
  destruct (load_try host postId lang net pg) as [pg1 computed].
  cbn [fst snd] in *. rewrite Hold in Hl.
  destruct computed as [html | error |]; cbn [bind]; [| |reflexivity].
  - unfold set_commentsList. now rewrite Hl.
  - unfold set_commentsList. cbn [console_error commentsList]. now rewrite Hl.
Qed.

(** ** The sanitization invariant *)






Lemma sanitized_no_markup (texts : list string) (h : string) :
  sanitized texts h -> no_markup h.
Proof. intros [text [_ ->]] c Hc. now apply escapeHtml_no_markup. Qed.

Lemma escapeHtml_empty_iff (s : string) : escapeHtml s = EmptyString <-> s = EmptyString.
Proof.
  split; [|intros ->; reflexivity].
  rewrite escapeHtml_one_pass. destruct s as [|x s]; [reflexivity|].
  cbn [flat_map_chars]. intros E. exfalso.
  destruct (escape_char_cases x) as [He | [Hx _]].
  - simpl in He. decompose [or] He; try contradiction;
      match goal with Heq : _ = escape_char x |- _ => rewrite <- Heq in E end;
      discriminate E.
  - rewrite Hx in E. discriminate E.
Qed.

Ltac sanitized_hole text :=
  exists text; split; [simpl; tauto | reflexivity].

Lemma media_template_holes (media : Media.t) :
  Forall (fun h => sanitized (media_texts media) h \/ h = "video/mp4" \/ h = "audio/mpeg")
    (holes (media_template media)).
Proof.
  unfold media_template, or_text.
  destruct (Media.type media =? "image")%string.
  { cbn [holes image_template]. repeat apply Forall_cons; try apply Forall_nil.
    - left. sanitized_hole (Media.url media).
    - left. sanitized_hole (Media.preview_url media).
    - left. sanitized_hole (or_else (Media.description media) "Image"). }
  destruct ((Media.type media =? "video")%string || (Media.type media =? "gifv")%string).
  { cbn [holes video_template]. repeat apply Forall_cons; try apply Forall_nil.
    - left. sanitized_hole (Media.preview_url media).
    - left. sanitized_hole (Media.url media).
    - destruct (escapeHtml (or_else (Media.mime_type media) EmptyString) =? "")%string;
        [right; left; reflexivity|].
      left. sanitized_hole (or_else (Media.mime_type media) EmptyString). }
  destruct (Media.type media =? "audio")%string; [|apply Forall_nil].
  cbn [holes audio_template]. repeat apply Forall_cons; try apply Forall_nil.
  - left. sanitized_hole (Media.url media).
  - destruct (escapeHtml (or_else (Media.mime_type media) EmptyString) =? "")%string;
      [right; right; reflexivity|].
    left. sanitized_hole (or_else (Media.mime_type media) EmptyString).
Qed.

Lemma initMastodon_configured `{Platform} (net : fetch_result) (pg : page) (div : element)
    (host postId : string) :
  commentsDiv pg = Some div ->
  getAttribute "data-mastodon-host" (attributes div) = Some host ->
  getAttribute "data-mastodon-post-id" (attributes div) = Some postId ->
  host <> EmptyString -> postId <> EmptyString ->
  exists link,
    (link = EmptyString
     \/ exists postUrl,
          getAttribute "data-mastodon-post-url" (attributes div) = Some postUrl
          /\ link = fill (link_template (escapeHtml postUrl)))
    /\ initMastodon net pg
       = loadMastodonComments host postId
           (or_else (getAttribute "data-page-language" (attributes div)) "en") net
           {| commentsDiv :=
                Some {| attributes := attributes div;
                        innerHTML := fill (skeleton_template link) |};
              commentsList := Some loading_html;
              console := console pg;
              requests := requests pg |}.
Proof.
  intros Hdiv Hhost Hid Hh Hp. unfold initMastodon. rewrite Hdiv, Hhost, Hid.
  cbn [falsy or_else].
  apply String.eqb_neq in Hh, Hp. rewrite Hh, Hp. cbn [orb].
  destruct (getAttribute "data-mastodon-post-url" (attributes div)) as [postUrl|].
  - cbn [falsy or_else]. destruct (String.eqb_spec postUrl EmptyString) as [->|Hu].
    + exists EmptyString. split; [left; reflexivity | reflexivity].
    + destruct (String.eqb_spec (escapeHtml postUrl) EmptyString) as [E|_].
      * apply (proj1 (escapeHtml_empty_iff _)) in E. contradiction.
      * eexists. split; [right; exists postUrl; split; reflexivity | reflexivity].
  - exists EmptyString. split; [left; reflexivity | reflexivity].
Qed.

Lemma loadMastodonComments_keeps_commentsDiv `{Platform}
    (host postId lang : string) (net : fetch_result) (pg pg' : page) (old : string) :
  commentsList pg = Some old ->
  loadMastodonComments host postId lang net pg = Settled pg' ->
  commentsDiv pg' = commentsDiv pg.
Proof.
  intros Hold Hrun. rewrite (loadMastodonComments_run _ _ _ _ _ _ Hold) in Hrun.
  destruct (load_try_keeps host postId lang net pg) as [Hd _].
  cbv zeta in *.
  destruct (snd (load_try host postId lang net pg)); [| |discriminate];
    injection Hrun as <-; exact Hd.
Qed.

(** C1.  What renderComment and initMastodon put into their markup.
    Every hole of the template of a reply holds the sanitizer's output on a
    text of the reply (display name or else handle, handle, profile URL,
    avatar URL, permalink), or the body after the emoji step, the formatted
    date, or the attachments block.  In the attachments block every hole
    holds the sanitizer's output on a text of the attachment (URL, preview
    URL, MIME type, description or its default) or a fixed MIME type; in
    the image element of an emoji, on its URL and shortcode; in the
    skeleton of the widget, the link holds the sanitizer's output on the
    post URL of the page.  What the sanitizer gave holds no markup
    character. *)
Theorem sanitization_invariant `{Platform} :
  (forall comment lang html,
      renderComment comment lang = Value html ->
      exists content timestamp,
        emojify (Comment.content comment) (Comment.emojis comment) = Value content
        /\ formatDate (Comment.created_at comment) lang = Value timestamp
        /\ let account := Comment.account comment in
           let template :=
             comment_template
               (escapeHtml (Account.avatar account))
               (escapeHtml (or_else (Account.display_name account) (Account.username account)))
               (escapeHtml (Account.url account))
               (escapeHtml (Account.username account))
               (escapeHtml (Comment.url comment))
               timestamp content (attachments (Comment.media_attachments comment)) in
           html = fill template
           /\ Forall (fun h => sanitized (reply_texts comment) h
                               \/ h = content
                               \/ h = timestamp
                               \/ h = attachments (Comment.media_attachments comment))
                (holes template))
  /\ (forall l, l <> [] ->
        attachments (Some l)
        = attachments_open ++ join (map (fun media => fill (media_template media)) l)
            ++ attachments_close)
  /\ (forall media,
        Forall (fun h => sanitized (media_texts media) h \/ h = "video/mp4" \/ h = "audio/mpeg")
          (holes (media_template media)))
  /\ (forall content emoji,
        let template :=
          emoji_template (escapeHtml (Emoji.url emoji)) (escapeHtml (Emoji.shortcode emoji)) in
        emojify_pass content emoji
        = (regex <- RegExp (":" ++ Emoji.shortcode emoji ++ ":") ;;
           Value (replace_literal regex (fill template) content))
        /\ Forall (sanitized (emoji_texts emoji)) (holes template))
  /\ (forall net pg div host postId pg',
        commentsDiv pg = Some div ->
        getAttribute "data-mastodon-host" (attributes div) = Some host ->
        getAttribute "data-mastodon-post-id" (attributes div) = Some postId ->
        host <> EmptyString -> postId <> EmptyString ->
        initMastodon net pg = Settled pg' ->
        exists div' link,
          commentsDiv pg' = Some div'
          /\ innerHTML div' = fill (skeleton_template link)
          /\ holes (skeleton_template link) = [link]
          /\ (link = EmptyString
              \/ exists postUrl,
                   getAttribute "data-mastodon-post-url" (attributes div) = Some postUrl
                   /\ link = fill (link_template (escapeHtml postUrl))
                   /\ holes (link_template (escapeHtml postUrl)) = [escapeHtml postUrl]))
  /\ (forall texts h, sanitized texts h -> no_markup h).
Proof.
  split; [|split; [|split; [|split; [|split]]]].
  - intros comment lang html Hr. unfold renderComment in Hr.
    destruct (emojify _ _) as [content| |]; cbn [bind] in Hr; try discriminate.
    destruct (formatDate _ _) as [timestamp| |]; cbn [bind] in Hr; try discriminate.
    injection Hr as <-. exists content, timestamp.
    split; [reflexivity|]. split; [reflexivity|]. cbv zeta. split; [reflexivity|].
    cbn [holes comment_template].
    repeat apply Forall_cons; try apply Forall_nil.
    + left. sanitized_hole (Account.avatar (Comment.account comment)).
    + left. sanitized_hole (or_else (Account.display_name (Comment.account comment))
                              (Account.username (Comment.account comment))).
    + left. sanitized_hole (Account.url (Comment.account comment)).
    + left. sanitized_hole (or_else (Account.display_name (Comment.account comment))
                              (Account.username (Comment.account comment))).
    + left. sanitized_hole (Account.url (Comment.account comment)).
    + left. sanitized_hole (Account.username (Comment.account comment)).
    + left. sanitized_hole (Comment.url comment).
    + right. right. left. reflexivity.
    + right. left. reflexivity.
    + right. right. right. reflexivity.
  - exact attachments_Some.
  - exact media_template_holes.
  - intros content emoji. cbv zeta. split; [reflexivity|].
    cbn [holes emoji_template]. repeat apply Forall_cons; try apply Forall_nil.
    + sanitized_hole (Emoji.url emoji).
    + sanitized_hole (Emoji.shortcode emoji).
  - intros net pg div host postId pg' Hdiv Hhost Hid Hh Hp Hrun.
    destruct (initMastodon_configured net pg div host postId Hdiv Hhost Hid Hh Hp)
      as [link [Hlink Hinit]].
    rewrite Hinit in Hrun.
    apply loadMastodonComments_keeps_commentsDiv with (old := loading_html) in Hrun;
      [|reflexivity].
    cbn [commentsDiv] in Hrun.
    eexists. exists link. split; [exact Hrun|]. split; [reflexivity|].
    split; [reflexivity|].
    destruct Hlink as [-> | [postUrl [Hu ->]]]; [left; reflexivity|].
    right. exists postUrl. repeat split. exact Hu.
  - exact sanitized_no_markup.
Qed.

(** A reply whose display name holds markup. *)
Lemma sanitization_invariant_witness :
  let reply := example_comment "<b>Ann</b>" "<p>hi</p>" in
  exists content timestamp,
    emojify (Comment.content reply) (Comment.emojis reply) = Value content
    /\ @formatDate example_platform (Comment.created_at reply) "en" = Value timestamp
    /\ Forall (fun h => sanitized (reply_texts reply) h
                        \/ h = content \/ h = timestamp
                        \/ h = attachments (Comment.media_attachments reply))
         (holes (comment_template
                   (escapeHtml (Account.avatar (Comment.account reply)))
                   "&lt;b&gt;Ann&lt;/b&gt;"
                   (escapeHtml (Account.url (Comment.account reply)))
                   (escapeHtml (Account.username (Comment.account reply)))
                   (escapeHtml (Comment.url reply))
                   timestamp content (attachments (Comment.media_attachments reply)))).
Proof.
  intros reply.
  destruct (proj1 (@sanitization_invariant example_platform) reply "en" _ eq_refl)
    as [content [timestamp [H1 [H2 [_ H3]]]]].
  exists content, timestamp. split; [exact H1|]. split; [exact H2 | exact H3].
Defined.

(** ** Validation *)


Lemma host_class_domain_char (c : ascii) : host_class c = domain_char c.
Proof. destruct c as [[] [] [] [] [] [] [] []]; reflexivity. Qed.

Lemma host_class_unreserved (c : ascii) : host_class c = true -> uri_unreserved c = true.
Proof. destruct c as [[] [] [] [] [] [] [] []]; intros E; (reflexivity || discriminate E). Qed.

Lemma digit_unreserved (c : ascii) : in_range "0" "9" c = true -> uri_unreserved c = true.
Proof. destruct c as [[] [] [] [] [] [] [] []]; intros E; (reflexivity || discriminate E). Qed.

Lemma forall_chars_ext (f g : ascii -> bool) (s : string) :
  (forall c, f c = g c) -> forall_chars f s = forall_chars g s.
Proof. intros E. induction s as [|c s IH]; [reflexivity|]. cbn. now rewrite E, IH. Qed.

Lemma encodeURIComponent_unreserved (s : string) :
  forall_chars uri_unreserved s = true -> encodeURIComponent s = s.
Proof.
  unfold encodeURIComponent. induction s as [|c s IH]; [reflexivity|].
  cbn [forall_chars flat_map_chars]. intros E. apply andb_true_iff in E as [Ec Es].
  rewrite Ec, IH by assumption. reflexivity.
Qed.

Lemma forall_chars_impl (f g : ascii -> bool) (s : string) :
  (forall c, f c = true -> g c = true) -> forall_chars f s = true -> forall_chars g s = true.
Proof.
  intros E. induction s as [|c s IH]; [reflexivity|].
  cbn [forall_chars]. intros H. apply andb_true_iff in H as [Hc Hs].
  now rewrite (E c Hc), IH.
Qed.

Lemma test_host_chars (host : string) :
  test_host host = true -> forall_chars host_class host = true.
Proof. destruct host; [discriminate | trivial]. Qed.

Lemma test_post_id_chars (postId : string) :
  test_post_id postId = true -> forall_chars (in_range "0" "9") postId = true.
Proof. destruct postId; [discriminate | trivial]. Qed.

Lemma context_url_valid (host postId : string) :
  test_host host = true -> test_post_id postId = true ->
  context_url host postId = "https://" ++ host ++ "/api/v1/statuses/" ++ postId ++ "/context".
Proof.
  intros Hh Hp. unfold context_url.
  rewrite !encodeURIComponent_unreserved; [reflexivity | |].
  - eapply forall_chars_impl; [exact digit_unreserved | now apply test_post_id_chars].
  - eapply forall_chars_impl; [exact host_class_unreserved | now apply test_host_chars].
Qed.

Lemma load_try_invalid `{Platform} (host postId lang : string) (net : fetch_result) (pg : page) :
  test_host host = false \/ test_post_id postId = false ->
  exists message, load_try host postId lang net pg = (pg, Throws (Error message)).
Proof.
  intros Hv. unfold load_try. destruct (test_host host).
  - destruct Hv as [Hv | ->]; [discriminate|]. eexists. reflexivity.
  - eexists. reflexivity.
Qed.

Lemma load_try_valid `{Platform} (host postId lang : string) (net : fetch_result) (pg : page) :
  test_host host = true -> test_post_id postId = true ->
  fst (load_try host postId lang net pg) = send_request (context_url host postId) pg.
Proof.
  intros Hh Hp. unfold load_try. rewrite Hh, Hp. cbn [negb].
  destruct net as [e | ok status b]; [reflexivity|].
  destruct ok; [|reflexivity]. destruct b; reflexivity.
Qed.

(** C4.  The loader accepts a host when it is a non-empty text of
    letters, digits, dots and hyphens, and a post identifier when it is a
    non-empty text of digits; [example.social] and [12345] are accepted,
    [example.com/evil] and [12a] are not.  When either is refused, the
    run ends with the error message in the list element and an entry in
    the console, and no request is sent; when both are accepted, the one
    request goes to the context URL of the host and the post. *)
Theorem loadMastodonComments_validates `{Platform} :
  (forall host,
      test_host host = true
      <-> host <> EmptyString /\ forall_chars domain_char host = true)
  /\ (forall postId,
        test_post_id postId = true
        <-> postId <> EmptyString /\ forall_chars (in_range "0" "9") postId = true)
  /\ test_host "example.social" = true
  /\ test_host "example.com/evil" = false
  /\ test_post_id "12345" = true
  /\ test_post_id "12a" = false
  /\ (forall host postId lang net pg old,
        commentsList pg = Some old ->
        test_host host = false \/ test_post_id postId = false ->
        exists error,
          loadMastodonComments host postId lang net pg
          = Settled {| commentsDiv := commentsDiv pg;
                       commentsList := Some error_html;
                       console := (console pg ++ [LogLoadError error])%list;
                       requests := requests pg |})
  /\ (forall host postId lang net pg old pg',
        commentsList pg = Some old ->
        test_host host = true -> test_post_id postId = true ->
        loadMastodonComments host postId lang net pg = Settled pg' ->
        requests pg'
        = (requests pg
             ++ [("https://" ++ host ++ "/api/v1/statuses/" ++ postId ++ "/context")%string])%list).
Proof.
  split; [|split; [|split; [|split; [|split; [|split; [|split]]]]]];
    try reflexivity.
  - intros host. rewrite (forall_chars_ext _ _ host (fun c => eq_sym (host_class_domain_char c))).
    destruct host; cbn [test_host]; split.
    + discriminate.
    + intros [E _]. congruence.
    + intros E. split; [discriminate | exact E].
    + intros [_ E]. exact E.
  - intros postId. destruct postId; cbn [test_post_id]; split.
    + discriminate.
    + intros [E _]. congruence.
    + intros E. split; [discriminate | exact E].
    + intros [_ E]. exact E.
  - intros host postId lang net pg old Hold Hv.
    destruct (load_try_invalid host postId lang net pg Hv) as [message E].
    exists (Error message).
    rewrite (loadMastodonComments_run _ _ _ _ _ _ Hold), E. reflexivity.
  - intros host postId lang net pg old pg' Hold Hh Hp Hrun.
    rewrite (loadMastodonComments_run _ _ _ _ _ _ Hold) in Hrun.
    rewrite (load_try_valid host postId lang net pg Hh Hp) in Hrun.
    rewrite <- context_url_valid by assumption. cbv zeta in Hrun.
    destruct (snd (load_try host postId lang net pg)); [| |discriminate];
      injection Hrun as <-; reflexivity.
Qed.

(** A host with a path in it, against a server that would answer. *)
Lemma loadMastodonComments_validates_witness :
  let pg := {| commentsDiv := None; commentsList := Some loading_html;
               console := []; requests := [] |} in
  exists error,
    @loadMastodonComments example_platform "example.com/evil" "12345" "en"
      (Response true 200 (Json {| descendants := None |})) pg
    = Settled {| commentsDiv := None;
                 commentsList := Some error_html;
                 console := [LogLoadError error];
                 requests := [] |}.
Proof.
  intros pg.
  exact (proj1 (proj2 (proj2 (proj2 (proj2 (proj2 (proj2
           (@loadMastodonComments_validates example_platform)))))))
           "example.com/evil" "12345" "en" _ pg loading_html eq_refl (or_introl eq_refl)).
Defined.

(** ** The outcomes of the loader *)


Lemma load_try_failure `{Platform} (host postId lang : string) (net : fetch_result) (pg : page) :
  fetch_stage_failure host postId net ->
  exists error, snd (load_try host postId lang net pg) = Throws error.
Proof.
  intros Hf. unfold load_try.
  destruct (test_host host) eqn:Hh; [|eexists; reflexivity].
  destruct (test_post_id postId) eqn:Hp; [|eexists; reflexivity].
  destruct Hf; try congruence; eexists; reflexivity.
Qed.

(** C5.  With the list element in the page: after a failure of the fetch
    stage the list element holds the error message, the console has one
    more entry, and nothing else has changed but the requests sent; after
    a successful response whose descendants (none when the field is
    absent) render to [html], the list element holds [html]. *)
Theorem loadMastodonComments_outcomes `{Platform}
    (host postId lang : string) (net : fetch_result) (pg : page) (old : string) :
  commentsList pg = Some old ->
  (fetch_stage_failure host postId net ->
   exists error pg',
     loadMastodonComments host postId lang net pg = Settled pg'
     /\ commentsList pg' = Some error_html
     /\ console pg' = (console pg ++ [LogLoadError error])%list
     /\ commentsDiv pg' = commentsDiv pg)
  /\ (forall status data html,
        test_host host = true -> test_post_id postId = true ->
        net = Response true status (Json data) ->
        renderComments
          (Some (match descendants data with Some l => l | None => [] end)) lang
        = Value html ->
        loadMastodonComments host postId lang net pg
        = Settled {| commentsDiv := commentsDiv pg;
                     commentsList := Some html;
                     console := console pg;
                     requests := (requests pg ++ [context_url host postId])%list |}).
Proof.
  intros Hold. split.
  - intros Hf. destruct (load_try_failure host postId lang net pg Hf) as [error E].
    destruct (load_try_keeps host postId lang net pg) as [Hd [_ Hc]].
    exists error. eexists.
    rewrite (loadMastodonComments_run _ _ _ _ _ _ Hold), E. cbv zeta.
    split; [reflexivity|]. split; [reflexivity|].
    cbn [with_commentsList console_error console commentsDiv].
    split; [now rewrite Hc | exact Hd].
  - intros status data html Hh Hp -> Hr.
    rewrite (loadMastodonComments_run _ _ _ _ _ _ Hold).
    unfold load_try. rewrite Hh, Hp. cbn [negb fst snd]. rewrite Hr. reflexivity.
Qed.

(** A status 500, and a thread without replies. *)
Lemma loadMastodonComments_outcomes_witness :
  let pg := {| commentsDiv := None; commentsList := Some loading_html;
               console := []; requests := [] |} in
  (exists error pg',
      @loadMastodonComments example_platform "example.social" "1" "en"
        (Response false 500 (BodyRejected SyntaxError)) pg = Settled pg'
      /\ commentsList pg' = Some error_html
      /\ console pg' = [LogLoadError error]
      /\ commentsDiv pg' = None)
  /\ @loadMastodonComments example_platform "example.social" "1" "en"
       (Response true 200 (Json {| descendants := Some [] |})) pg
     = Settled {| commentsDiv := None;
                  commentsList := Some no_comments_html;
                  console := [];
                  requests := ["https://example.social/api/v1/statuses/1/context"] |}.
Proof.
  intros pg. split.
  - exact (proj1 (@loadMastodonComments_outcomes example_platform "example.social" "1" "en"
                    _ pg loading_html eq_refl)
                 (bad_status _ _ 500 (BodyRejected SyntaxError))).
  - exact (proj2 (@loadMastodonComments_outcomes example_platform "example.social" "1" "en"
                    _ pg loading_html eq_refl)
                 200 {| descendants := Some [] |} no_comments_html
                 eq_refl eq_refl eq_refl eq_refl).
Defined.

(** A reply that fails to render ends the run as a failure of the fetch
    stage does. *)
Lemma loadMastodonComments_render_throws `{Platform}
    (host postId lang : string) (status : nat) (data : context_json) (pg : page)
    (old : string) (error : exn) :
  commentsList pg = Some old ->
  test_host host = true -> test_post_id postId = true ->
  renderComments (Some (match descendants data with Some l => l | None => [] end)) lang
  = Throws error ->
  loadMastodonComments host postId lang (Response true status (Json data)) pg
  = Settled (with_commentsList error_html
               (console_error (LogLoadError error)
                  (send_request (context_url host postId) pg))).
Proof.
  intros Hold Hh Hp Hr. rewrite (loadMastodonComments_run _ _ _ _ _ _ Hold).
  unfold load_try. rewrite Hh, Hp. cbn [negb fst snd]. rewrite Hr. reflexivity.
Qed.

(** ** The frame of initMastodon *)

(** C9.  Without the container in the page, initMastodon changes nothing:
    no markup, no request, no entry in the console.  With the container
    but without a host or a post identifier, it adds one entry to the
    console and changes nothing else: the container and the list element
    are as they were, and no request is sent. *)
Theorem initMastodon_frame `{Platform} (net : fetch_result) (pg : page) :
  (commentsDiv pg = None -> initMastodon net pg = Settled pg)
  /\ (forall div,
        commentsDiv pg = Some div ->
        falsy (getAttribute "data-mastodon-host" (attributes div)) = true
        \/ falsy (getAttribute "data-mastodon-post-id" (attributes div)) = true ->
        initMastodon net pg
        = Settled {| commentsDiv := commentsDiv pg;
                     commentsList := commentsList pg;
                     console := (console pg ++ [LogNotConfigured])%list;
                     requests := requests pg |}).
Proof.
  split.
  - intros Hdiv. unfold initMastodon. now rewrite Hdiv.
  - intros div Hdiv Hmissing. apply orb_true_iff in Hmissing.
    unfold initMastodon. rewrite Hdiv, Hmissing.
    unfold console_error. now rewrite Hdiv.
Qed.

(** A page without the container, and a container without post identifier. *)
Lemma initMastodon_frame_witness :
  let div := {| attributes := [("class", "comments"); ("data-mastodon-host", "example.social")];
                innerHTML := "<noscript>Comments need JavaScript.</noscript>" |} in
  let pg := {| commentsDiv := Some div; commentsList := None;
               console := []; requests := [] |} in
  @initMastodon example_platform (FetchRejected TypeError)
    {| commentsDiv := None; commentsList := None; console := []; requests := [] |}
  = Settled {| commentsDiv := None; commentsList := None; console := []; requests := [] |}
  /\ @initMastodon example_platform (FetchRejected TypeError) pg
     = Settled {| commentsDiv := Some div; commentsList := None;
                  console := [LogNotConfigured]; requests := [] |}.
Proof.
  intros div pg. split.
  - exact (proj1 (@initMastodon_frame example_platform (FetchRejected TypeError)
                    {| commentsDiv := None; commentsList := None;
                       console := []; requests := [] |}) eq_refl).
  - exact (proj2 (@initMastodon_frame example_platform (FetchRejected TypeError) pg)
             div eq_refl (or_intror eq_refl)).
Defined.

(** ** The widget from start to end *)

(** A thread without replies shows the message of the empty list. *)
Example initMastodon_no_replies :
  exists pg,
    @initMastodon example_platform
      (Response true 200 (Json {| descendants := Some [] |}))
      (example_page example_attributes) = Settled pg
    /\ commentsList pg = Some no_comments_html
    /\ console pg = []
    /\ requests pg = ["https://example.social/api/v1/statuses/1/context"].
Proof. eexists. split; [reflexivity|]. repeat split. Qed.

(** A status 500 shows the error message. *)
Example initMastodon_status_500 :
  exists pg,
    @initMastodon example_platform
      (Response false 500 (BodyRejected SyntaxError))
      (example_page example_attributes) = Settled pg
    /\ commentsList pg = Some error_html
    /\ console pg = [LogLoadError (Error "HTTP error! status: 500")]
    /\ requests pg = ["https://example.social/api/v1/statuses/1/context"].
Proof. eexists. split; [reflexivity|]. repeat split. Qed.

(** A display name that holds markup reaches the page as text. *)
Example renderComment_hostile_name :
  exists html,
    @renderComment example_platform
      (example_comment "<script>alert(1)</script>" "<p>hi</p>") "en" = Value html
    /\ occurs "<script>" html = false
    /\ occurs "&lt;script&gt;alert(1)&lt;/script&gt;'s avatar" html = true.
Proof. eexists. split; [reflexivity|]. split; reflexivity. Qed.

(** A locale that the platform refuses makes every reply fail to render,
    and the run ends with the error message. *)
Example initMastodon_refused_locale :
  exists pg,
    @initMastodon example_platform
      (Response true 200 (Json {| descendants := Some [example_comment "Ann" "<p>hi</p>"] |}))
      (example_page (("data-page-language", "en_US") :: example_attributes)) = Settled pg
    /\ commentsList pg = Some error_html
    /\ console pg = [LogLoadError RangeError].
Proof. eexists. split; [reflexivity|]. split; reflexivity. Qed.

(** Called on a page without the list element, the loader cannot write
    its error message either: the run is rejected with a TypeError, after
    the entry in the console. *)
Example loadMastodonComments_without_list :
  @loadMastodonComments example_platform "example.social" "1" "en"
    (FetchRejected TypeError)
    {| commentsDiv := None; commentsList := None; console := []; requests := [] |}
  = Rejected
      {| commentsDiv := None; commentsList := None;
         console := [LogLoadError TypeError];
         requests := ["https://example.social/api/v1/statuses/1/context"] |}
      TypeError.
Proof. reflexivity. Qed.

(* ================================================================= *)
(** * Further properties *)

(** ** escapeHtml as a code *)

Lemma escape_char_shape (x : ascii) :
  (x = "&"%char /\ escape_char x = "&amp;")
  \/ (x = "<"%char /\ escape_char x = "&lt;")
  \/ (x = ">"%char /\ escape_char x = "&gt;")
  \/ (x = dquote /\ escape_char x = "&quot;")
  \/ (x = "'"%char /\ escape_char x = "&#039;")
  \/ (significant x = false /\ escape_char x = String x EmptyString).
Proof.
  unfold escape_char, significant.
  destruct (Ascii.eqb_spec x "&"); [tauto|].
  destruct (Ascii.eqb_spec x "<"); [tauto|].
  destruct (Ascii.eqb_spec x ">"); [tauto|].
  destruct (Ascii.eqb_spec x dquote); [tauto|].
  destruct (Ascii.eqb_spec x "'"); [tauto|].
  repeat right. split; reflexivity.
Qed.

Lemma escape_char_cancel (x y : ascii) (r1 r2 : string) :
  escape_char x ++ r1 = escape_char y ++ r2 -> x = y /\ r1 = r2.
Proof.
  destruct (escape_char_shape x) as [[-> ->]|[[-> ->]|[[-> ->]|[[-> ->]|[[-> ->]|[Hx ->]]]]]];
  destruct (escape_char_shape y) as [[-> ->]|[[-> ->]|[[-> ->]|[[-> ->]|[[-> ->]|[Hy ->]]]]]];
  cbn [append]; intros E;
  try (injection E as E; subst; try discriminate Hx; try discriminate Hy; split; reflexivity);
  try discriminate E.
Qed.

Lemma escape_char_not_empty (x : ascii) (r : string) : escape_char x ++ r <> EmptyString.
Proof.
  destruct (escape_char_shape x) as [[_ ->]|[[_ ->]|[[_ ->]|[[_ ->]|[[_ ->]|[_ ->]]]]]];
    discriminate.
Qed.

Lemma escapeHtml_cancel (s1 s2 : string) :
  escapeHtml s1 = escapeHtml s2 -> s1 = s2.
Proof.
  rewrite !escapeHtml_one_pass. revert s2.
  induction s1 as [|x s1 IH]; intros [|y s2] E; cbn [flat_map_chars] in E.
  - reflexivity.
  - symmetry in E. now apply escape_char_not_empty in E.
  - now apply escape_char_not_empty in E.
  - apply escape_char_cancel in E as [-> E]. f_equal. now apply IH.
Qed.

(** X1.  escapeHtml loses nothing: two texts with the same output are the
    same text. *)
Theorem escapeHtml_injective (s1 s2 : string) :
  escapeHtml s1 = escapeHtml s2 -> s1 = s2.
Proof. apply escapeHtml_cancel. Qed.

(** A text and its escaped form are two texts, so their outputs differ. *)
Lemma escapeHtml_injective_witness :
  escapeHtml "Tom &amp; Jerry" <> escapeHtml "Tom & Jerry".
Proof.
  intros E. apply escapeHtml_injective in E. discriminate E.
Defined.

Lemma escapeHtml_pieces (a b : string) :
  escapeHtml (a ++ b) = escapeHtml a ++ escapeHtml b.
Proof. rewrite !escapeHtml_one_pass. apply flat_map_chars_append. Qed.

(** X2.  escapeHtml is a homomorphism for concatenation: a text may be
    escaped piece by piece. *)
Theorem escapeHtml_append (a b : string) :
  escapeHtml (a ++ b) = escapeHtml a ++ escapeHtml b.
Proof. apply escapeHtml_pieces. Qed.

Lemma length_escapeHtml (s : string) : String.length s <= String.length (escapeHtml s).
Proof.
  rewrite escapeHtml_one_pass. induction s as [|x s IH]; [apply Nat.le_refl|].
  cbn [flat_map_chars String.length]. rewrite length_append.
  destruct (escape_char_shape x) as [[_ ->]|[[_ ->]|[[_ ->]|[[_ ->]|[[_ ->]|[_ ->]]]]]];
    simpl; lia.
Qed.

Lemma escape_char_plain (x : ascii) :
  significant x = false -> escape_char x = String x EmptyString.
Proof.
  intros Hx.
  destruct (escape_char_shape x) as [[-> _]|[[-> _]|[[-> _]|[[-> _]|[[-> _]|[_ E]]]]]];
    (discriminate Hx || exact E).
Qed.

Lemma escapeHtml_plain (s : string) : plain s = true -> escapeHtml s = s.
Proof.
  rewrite escapeHtml_one_pass. unfold plain.
  induction s as [|x s IH]; [reflexivity|].
  cbn [forall_chars flat_map_chars]. intros H. apply andb_true_iff in H as [Hx Hs].
  apply negb_true_iff in Hx. rewrite (escape_char_plain x Hx), IH by assumption. reflexivity.
Qed.

Lemma escapeHtml_fixed_plain (s : string) : escapeHtml s = s -> plain s = true.
Proof.
  unfold plain. induction s as [|x s IH]; [reflexivity|].
  intros E. change (String x s) with (String x EmptyString ++ s) in E at 1.
  rewrite escapeHtml_pieces in E.
  replace (escapeHtml (String x EmptyString)) with (escape_char x) in E
    by (now rewrite escapeHtml_one_pass; cbn; rewrite append_nil_r).
  pose proof (length_escapeHtml s) as Hlen.
  cbn [forall_chars].
  destruct (escape_char_shape x) as [[-> Hx]|[[-> Hx]|[[-> Hx]|[[-> Hx]|[[-> Hx]|[Hx Hx']]]]]];
    rewrite ?Hx, ?Hx' in E; cbn [append] in E; try discriminate E.
  - injection E as E. apply (f_equal String.length) in E. simpl in E. lia.
  - injection E as E. rewrite Hx. now rewrite IH.
Qed.

(** X3.  The texts that escapeHtml leaves as they are are the texts
    without [&], [<], [>] and quotes; the output is never shorter than the
    input; and escaping a second time changes the text again exactly when
    the first time did. *)
Theorem escapeHtml_fixed_points (s : string) :
  (escapeHtml s = s <-> plain s = true)
  /\ String.length s <= String.length (escapeHtml s)
  /\ (escapeHtml (escapeHtml s) = escapeHtml s <-> escapeHtml s = s).
Proof.
  split; [split; [apply escapeHtml_fixed_plain | apply escapeHtml_plain]|].
  split; [apply length_escapeHtml|].
  split.
  - apply escapeHtml_cancel.
  - intros E. now rewrite !E.
Qed.

(** ** emojify on a content without shortcodes *)

Lemma prefix_head_absent (c : ascii) (p s : string) :
  mem c s = false -> prefix (String c p) s = false.
Proof.
  destruct s as [|x s]; [reflexivity|]. cbn [mem prefix]. intros H.
  apply orb_false_iff in H as [H _]. apply Ascii.eqb_neq in H.
  destruct (ascii_dec c x); [congruence | reflexivity].
Qed.

Lemma occurs_head_absent (c : ascii) (p s : string) :
  mem c s = false -> occurs (String c p) s = false.
Proof.
  induction s as [|x s IH]; intros H.
  - reflexivity.
  - rewrite occurs_cons, (prefix_head_absent c p _ H). cbn [mem] in H.
    apply orb_false_iff in H as [_ H]. now apply IH.
Qed.

(** X4.  A content without a colon holds no shortcode: whatever the
    collection (of shortcodes without syntax characters), emojify returns
    the content as it is. *)
Theorem emojify_without_colon (content : string) (emojis : list Emoji.t) :
  Forall (fun emoji => literal_source (Emoji.shortcode emoji) = true) emojis ->
  mem ":" content = false ->
  emojify content (Some emojis) = Value content.
Proof.
  intros Hlit Hc. rewrite emojify_Some.
  induction Hlit as [|e l He _ IH]; [reflexivity|].
  cbn [foldM]. rewrite emojify_pass_literal by assumption. cbn [bind].
  unfold replace_literal. rewrite replace_scan_absent; [exact IH|].
  now apply occurs_head_absent.
Qed.

Lemma emojify_without_colon_witness :
  emojify "<p>no emoji here</p>"
    (Some [{| Emoji.shortcode := "wave"; Emoji.url := "https://x/w.png?a=$&b" |};
           {| Emoji.shortcode := "p"; Emoji.url := "https://x/p.png" |}])
  = Value "<p>no emoji here</p>".
Proof.
  apply emojify_without_colon; [repeat constructor | reflexivity].
Defined.

(** ** The attachments block *)

Lemma media_template_unknown (media : Media.t) :
  known_kind media = false -> fill (media_template media) = EmptyString.
Proof.
  unfold known_kind, media_template. intros H.
  apply orb_false_iff in H as [H Ha]. apply orb_false_iff in H as [H Hg].
  apply orb_false_iff in H as [Hi Hv]. now rewrite Hi, Hv, Hg, Ha.
Qed.

Lemma join_map_filter (l : list Media.t) :
  join (map (fun media => fill (media_template media)) l)
  = join (map (fun media => fill (media_template media)) (filter known_kind l)).
Proof.
  induction l as [|m l IH]; [reflexivity|].
  cbn [map join filter]. destruct (known_kind m) eqn:E.
  - cbn [map join]. now rewrite IH.
  - now rewrite (media_template_unknown m E).
Qed.

(** ** renderComments, all or nothing *)

Lemma mapM_Value_Forall2 {A B : Type} (f : A -> outcome B) (l : list A) (bs : list B) :
  mapM f l = Value bs -> Forall2 (fun a b => f a = Value b) l bs.
Proof.
  revert bs; induction l as [|a l IH]; intros bs E; cbn [mapM] in E.
  - injection E as <-. constructor.
  - destruct (f a) as [b| |] eqn:Ea; cbn [bind] in E; try discriminate.
    destruct (mapM f l) as [bs'| |]; cbn [bind] in E; try discriminate.
    injection E as <-. constructor; [exact Ea | now apply IH].
Qed.

Lemma join_not_empty (f : string) (l : list string) :
  f <> EmptyString -> join (f :: l) <> EmptyString.
Proof. intros Hf. cbn [join]. destruct f; [congruence | discriminate]. Qed.

Lemma renderComment_starts `{Platform} (comment : Comment.t) (lang html : string) :
  renderComment comment lang = Value html ->
  exists rest, html = String "010" (String " " (String " " (String " " (String " "
                        (String " " (String " " (String " " (String " "
                          (String "<" rest))))))))).
Proof.
  unfold renderComment. intros Hr.
  destruct (emojify _ _) as [content| |]; cbn [bind] in Hr; try discriminate.
  destruct (formatDate _ _) as [timestamp| |]; cbn [bind] in Hr; try discriminate.
  injection Hr as <-. cbn [fill comment_template piece_text append]. eexists. reflexivity.
Qed.

(** X6.  renderComments gives markup for all the replies or for none: when
    it returns a text, every reply of the collection has rendered to a
    fragment, the text is these fragments in order, and it is never empty;
    when one reply throws, the replies before it having rendered, the
    whole call throws that error. *)
Theorem renderComments_all_or_nothing `{Platform}
    (comments : list Comment.t) (lang : string) :
  (forall html,
      renderComments (Some comments) lang = Value html ->
      html <> EmptyString
      /\ (comments = [] /\ html = no_comments_html
          \/ exists fragments,
               Forall2 (fun comment fragment => renderComment comment lang = Value fragment)
                 comments fragments
               /\ html = join fragments))
  /\ (forall before comment after fragments error,
        comments = (before ++ comment :: after)%list ->
        Forall2 (fun c fragment => renderComment c lang = Value fragment) before fragments ->
        renderComment comment lang = Throws error ->
        renderComments (Some comments) lang = Throws error).
Proof.
  split.
  - intros html Hr. destruct comments as [|c l].
    + injection Hr as <-. split; [discriminate | left; split; reflexivity].
    + unfold renderComments in Hr.
      destruct (mapM _ _) as [fragments| |] eqn:Em; cbn [bind] in Hr; try discriminate.
      injection Hr as <-. apply mapM_Value_Forall2 in Em.
      split; [|right; exists fragments; split; [exact Em | reflexivity]].
      inversion Em as [|? f ? fs Hc _]; subst.
      apply renderComment_starts in Hc as [rest ->]. discriminate.
  - intros before comment after fragments error -> Hb Hc.
    assert (Hm : mapM (fun c => renderComment c lang) (before ++ comment :: after)%list
                 = Throws error).
    { induction Hb as [|c f l fs Hcf _ IH]; cbn [List.app mapM].
      - rewrite Hc. reflexivity.
      - rewrite Hcf. cbn [bind]. rewrite IH. reflexivity. }
    unfold renderComments. rewrite Hm.
    destruct (before ++ comment :: after)%list eqn:E; [|reflexivity].
    destruct before; discriminate E.
Qed.

Lemma renderComments_all_or_nothing_witness :
  @renderComments example_platform
    (Some [example_comment "Ann" "<p>one</p>"; example_comment "Bob" "<p>two</p>"]) "en_US"
  = Throws RangeError.
Proof.
  apply (proj2 (@renderComments_all_or_nothing example_platform _ "en_US")
           [] (example_comment "Ann" "<p>one</p>") [example_comment "Bob" "<p>two</p>"]
           [] RangeError eq_refl (Forall2_nil _) eq_refl).
Defined.

(** ** The frame of the loader *)

Lemma load_try_computed `{Platform} (host postId lang : string) (net : fetch_result)
    (pg pg' : page) :
  snd (load_try host postId lang net pg) = snd (load_try host postId lang net pg').
Proof.
  unfold load_try.
  destruct (test_host host); [|reflexivity].
  destruct (test_post_id postId); [|reflexivity].
  destruct net as [e | ok status b]; [reflexivity|].
  destruct ok; [|reflexivity]. destruct b; reflexivity.
Qed.

Lemma load_try_requests `{Platform} (host postId lang : string) (net : fetch_result) (pg : page) :
  (test_host host && test_post_id postId = false
   /\ fst (load_try host postId lang net pg) = pg
   /\ exists message, snd (load_try host postId lang net pg) = Throws (Error message))
  \/ (test_host host && test_post_id postId = true
      /\ fst (load_try host postId lang net pg) = send_request (context_url host postId) pg).
Proof.
  destruct (test_host host) eqn:Hh; [destruct (test_post_id postId) eqn:Hp|].
  - right. split; [reflexivity|]. now apply load_try_valid.
  - left. split; [reflexivity|].
    destruct (load_try_invalid host postId lang net pg (or_intror Hp)) as [m E].
    rewrite E. split; [reflexivity | exists m; reflexivity].
  - left. split; [reflexivity|].
    destruct (load_try_invalid host postId lang net pg (or_introl Hh)) as [m E].
    rewrite E. split; [reflexivity | exists m; reflexivity].
Qed.

(** How a run ends, by what the [try] block computed and whether the list
    element is there. *)
Lemma loadMastodonComments_cases `{Platform}
    (host postId lang : string) (net : fetch_result) (pg : page) :
  let pg1 := fst (load_try host postId lang net pg) in
  loadMastodonComments host postId lang net pg
  = match snd (load_try host postId lang net pg), commentsList pg with
    | Unmodelled, _ => OutOfModel
    | Value html, Some _ => Settled (with_commentsList html pg1)
    | Value _, None =>
        Rejected (console_error (LogLoadError TypeError) pg1) TypeError
    | Throws error, Some _ =>
        Settled (with_commentsList error_html (console_error (LogLoadError error) pg1))
    | Throws error, None =>
        Rejected (console_error (LogLoadError error) pg1) TypeError
    end.
Proof.
  cbv zeta. unfold loadMastodonComments.
  destruct (load_try_keeps host postId lang net pg) as [_ [Hl _]].
  destruct (load_try host postId lang net pg) as [pg1 computed]. cbn [fst snd] in *.
  destruct computed as [html | error |]; cbn [bind]; [| |reflexivity];
    unfold set_commentsList; cbn [console_error commentsList]; rewrite Hl;
    destruct (commentsList pg); reflexivity.
Qed.

(** X7.  Whatever the answer of the network, a run of the loader leaves
    the outer container alone, sends no request for a refused host or post
    identifier and exactly one, to the context URL, otherwise, and adds at
    most one entry to the console; it adds that entry exactly when it
    writes the error message in place of the list (or finds no list
    element to write to). *)
Theorem loadMastodonComments_frame `{Platform}
    (host postId lang : string) (net : fetch_result) (pg pg' : page) :
  completion_page (loadMastodonComments host postId lang net pg) = Some pg' ->
  commentsDiv pg' = commentsDiv pg
  /\ (test_host host && test_post_id postId = false /\ requests pg' = requests pg
      \/ test_host host && test_post_id postId = true
         /\ requests pg' = (requests pg ++ [context_url host postId])%list)
  /\ (console pg' = console pg
      /\ (exists html, commentsList pg' = Some html
                       /\ snd (load_try host postId lang net pg) = Value html)
      \/ exists error,
           console pg' = (console pg ++ [LogLoadError error])%list
           /\ commentsList pg'
              = match commentsList pg with Some _ => Some error_html | None => None end).
Proof.
  rewrite loadMastodonComments_cases. cbv zeta.
  destruct (load_try_keeps host postId lang net pg) as [Hd [Hl Hc]]. cbv zeta in *.
  intros Hrun.
  assert (Hreq :
    test_host host && test_post_id postId = false
    /\ requests (fst (load_try host postId lang net pg)) = requests pg
    \/ test_host host && test_post_id postId = true
       /\ requests (fst (load_try host postId lang net pg))
          = (requests pg ++ [context_url host postId])%list).
  { destruct (load_try_requests host postId lang net pg) as [[Hv [E _]] | [Hv E]];
      rewrite E; [left | right]; split; (assumption || reflexivity). }
  destruct (snd (load_try host postId lang net pg)) as [html | error |] eqn:Es;
    destruct (commentsList pg) as [old|] eqn:Eo;
    cbn [completion_page] in Hrun; try discriminate Hrun;
    injection Hrun as <-;
    cbn [with_commentsList console_error commentsDiv commentsList console requests];
    (split; [exact Hd|]); (split; [exact Hreq|]).
  - left. split; [exact Hc|]. exists html. split; reflexivity.
  - right. exists TypeError. rewrite Hc, Hl. split; reflexivity.
  - right. exists error. rewrite Hc. split; reflexivity.
  - right. exists error. rewrite Hc, Hl. split; reflexivity.
Qed.

Lemma loadMastodonComments_frame_witness :
  let pg := {| commentsDiv := None; commentsList := Some loading_html;
               console := [LogNotConfigured]; requests := ["https://other/"] |} in
  exists pg',
    @loadMastodonComments example_platform "example.social" "7" "en"
      (FetchRejected TypeError) pg = Settled pg'
    /\ commentsDiv pg' = None
    /\ requests pg'
       = ["https://other/"; "https://example.social/api/v1/statuses/7/context"].
Proof.
  intros pg. eexists. split; [reflexivity|].
  destruct (@loadMastodonComments_frame example_platform "example.social" "7" "en"
              (FetchRejected TypeError) pg _ eq_refl) as [Hd [[[Hv _] | [_ Hr]] _]].
  - discriminate Hv.
  - split; [exact Hd | exact Hr].
Defined.

(** X8.  Called on a page without the list element, the loader never
    settles: unless the run leaves the model, it is rejected with a
    TypeError, after one entry in the console and with nothing written. *)
Theorem loadMastodonComments_without_list_element `{Platform}
    (host postId lang : string) (net : fetch_result) (pg : page) :
  commentsList pg = None ->
  loadMastodonComments host postId lang net pg = OutOfModel
  \/ exists pg' error,
       loadMastodonComments host postId lang net pg = Rejected pg' TypeError
       /\ console pg' = (console pg ++ [LogLoadError error])%list
       /\ commentsList pg' = None
       /\ commentsDiv pg' = commentsDiv pg.
Proof.
  intros Hn. rewrite loadMastodonComments_cases. cbv zeta. rewrite Hn.
  destruct (load_try_keeps host postId lang net pg) as [Hd [Hl Hc]]. cbv zeta in *.
  destruct (snd (load_try host postId lang net pg)) as [html | error |];
    [right | right | left; reflexivity].
  - eexists. exists TypeError. split; [reflexivity|].
    cbn [console_error console commentsList commentsDiv]. now rewrite Hc, Hl, Hn.
  - eexists. exists error. split; [reflexivity|].
    cbn [console_error console commentsList commentsDiv]. now rewrite Hc, Hl, Hn.
Qed.

Lemma loadMastodonComments_without_list_element_witness :
  let pg := {| commentsDiv := None; commentsList := None; console := []; requests := [] |} in
  exists pg' error,
    @loadMastodonComments example_platform "example.social" "1" "en"
      (Response true 200 (Json {| descendants := None |})) pg = Rejected pg' TypeError
    /\ console pg' = [LogLoadError error].
Proof.
  intros pg.
  destruct (@loadMastodonComments_without_list_element example_platform
              "example.social" "1" "en"
              (Response true 200 (Json {| descendants := None |})) pg eq_refl)
    as [E | [pg' [error [E [Hc _]]]]].
  - discriminate E.
  - exists pg', error. split; [exact E | exact Hc].
Defined.

(** ** The states in which initMastodon ends *)

Lemma initMastodon_unfold `{Platform} (net : fetch_result) (pg : page) (div : element) :
  commentsDiv pg = Some div -> configured div = true ->
  initMastodon net pg
  = loadMastodonComments (page_host div) (page_post_id div) (page_language div) net
      (skeleton_page div pg).
Proof.
  intros Hdiv Hc. unfold configured in Hc. apply negb_true_iff in Hc.
  unfold initMastodon. rewrite Hdiv, Hc. reflexivity.
Qed.

Lemma load_try_value `{Platform} (host postId lang : string) (net : fetch_result)
    (pg : page) (html : string) :
  snd (load_try host postId lang net pg) = Value html ->
  exists comments, renderComments (Some comments) lang = Value html.
Proof.
  unfold load_try.
  destruct (test_host host); [|discriminate].
  destruct (test_post_id postId); [|discriminate].
  destruct net as [e | ok status b]; [discriminate|].
  destruct ok; [|discriminate]. destruct b as [e | data]; [discriminate|].
  cbn [negb snd]. intros E. eexists. exact E.
Qed.

Lemma renderComments_not_loading `{Platform}
    (comments : option (list Comment.t)) (lang html : string) :
  renderComments comments lang = Value html ->
  html <> loading_html /\ html <> EmptyString /\ html <> error_html.
Proof.
  destruct comments as [[|c l]|]; cbn [renderComments].
  - intros [= <-]. repeat split; discriminate.
  - destruct (mapM _ _) as [fragments| |] eqn:Em; cbn [bind]; try discriminate.
    intros [= <-]. apply mapM_Value_Forall2 in Em.
    inversion Em as [|? f ? fs Hc _]; subst.
    apply renderComment_starts in Hc as [rest ->].
    cbn [join append]. repeat split; discriminate.
  - intros [= <-]. repeat split; discriminate.
Qed.

(** X9.  With the container configured, when a run of initMastodon
    settles the container holds the skeleton and the list element holds
    the error message, with one entry more in the console, or what
    renderComments gave for the replies, with the console as it was; the
    loading message is gone and the list is never empty.  (The container
    is taken to parse the skeleton into elements, as a [div] does.) *)
Theorem initMastodon_terminal `{Platform} (net : fetch_result) (pg pg' : page)
    (div : element) :
  commentsDiv pg = Some div -> configured div = true ->
  initMastodon net pg = Settled pg' ->
  commentsDiv pg'
  = Some {| attributes := attributes div;
            innerHTML := fill (skeleton_template (post_link div)) |}
  /\ exists html,
       commentsList pg' = Some html
       /\ html <> loading_html /\ html <> EmptyString
       /\ (html = error_html
           /\ (exists error, console pg' = (console pg ++ [LogLoadError error])%list)
           \/ html <> error_html
              /\ console pg' = console pg
              /\ exists comments,
                   renderComments (Some comments) (page_language div) = Value html).
Proof.
  intros Hdiv Hc. rewrite (initMastodon_unfold net pg div Hdiv Hc).
  rewrite loadMastodonComments_cases. cbv zeta.
  destruct (load_try_keeps (page_host div) (page_post_id div) (page_language div) net
              (skeleton_page div pg)) as [Hd [Hl Hcons]]. cbv zeta in *.
  cbn [skeleton_page commentsList].
  destruct (snd (load_try _ _ _ net (skeleton_page div pg))) as [html | error |] eqn:Es.
  - intros [= <-].
    cbn [with_commentsList commentsDiv commentsList console].
    split; [exact Hd|]. exists html. split; [reflexivity|].
    apply load_try_value in Es as [comments Hr].
    destruct (renderComments_not_loading _ _ _ Hr) as [H1 [H2 H3]].
    split; [exact H1|]. split; [exact H2|]. right.
    split; [exact H3|]. split; [exact Hcons|]. exists comments. exact Hr.
  - intros [= <-].
    cbn [with_commentsList console_error commentsDiv commentsList console].
    split; [exact Hd|]. exists error_html. split; [reflexivity|].
    split; [discriminate|]. split; [discriminate|]. left.
    split; [reflexivity|]. exists error. now rewrite Hcons.
  - discriminate.
Qed.

Lemma initMastodon_terminal_witness :
  exists pg' html,
    @initMastodon example_platform
      (Response true 200 (Json {| descendants := None |}))
      (example_page example_attributes) = Settled pg'
    /\ commentsList pg' = Some html
    /\ html <> loading_html.
Proof.
  eexists.
  destruct (@initMastodon_terminal example_platform
              (Response true 200 (Json {| descendants := None |}))
              (example_page example_attributes) _ _ eq_refl eq_refl eq_refl)
    as [_ [html [Hl [Hn _]]]].
  exists html. split; [reflexivity|]. split; [exact Hl | exact Hn].
Defined.

(** X10.  Running initMastodon again on the page it left, with the same
    answer of the network, leaves the container and the list element as
    the first run left them; only the console and the requests grow. *)
Theorem initMastodon_again `{Platform} (net : fetch_result) (pg pg1 : page) :
  initMastodon net pg = Settled pg1 ->
  exists pg2,
    initMastodon net pg1 = Settled pg2
    /\ commentsDiv pg2 = commentsDiv pg1
    /\ commentsList pg2 = commentsList pg1.
Proof.
  intros Hrun. destruct (commentsDiv pg) as [div|] eqn:Hdiv.
  - destruct (configured div) eqn:Hc.
    + rewrite (initMastodon_unfold net pg div Hdiv Hc) in Hrun.
      rewrite loadMastodonComments_cases in Hrun. cbv zeta in Hrun.
      destruct (load_try_keeps (page_host div) (page_post_id div) (page_language div) net
                  (skeleton_page div pg)) as [Hd [_ _]]. cbv zeta in Hd.
      cbn [skeleton_page commentsList commentsDiv] in Hrun, Hd.
      set (div1 := {| attributes := attributes div;
                      innerHTML := fill (skeleton_template (post_link div)) |}) in *.
      assert (Hdiv1 : commentsDiv pg1 = Some div1).
      { destruct (snd (load_try _ _ _ net (skeleton_page div pg)));
          try discriminate Hrun; injection Hrun as <-; exact Hd. }
      rewrite (initMastodon_unfold net pg1 div1 Hdiv1 Hc).
      rewrite loadMastodonComments_cases. cbv zeta.
      destruct (load_try_keeps (page_host div1) (page_post_id div1) (page_language div1) net
                  (skeleton_page div1 pg1)) as [Hd1 [_ _]]. cbv zeta in Hd1.
      cbn [skeleton_page commentsList commentsDiv] in Hd1 |- *.
      change (page_host div1) with (page_host div) in *.
      change (page_post_id div1) with (page_post_id div) in *.
      change (page_language div1) with (page_language div) in *.
      change (post_link div1) with (post_link div) in *.
      rewrite (load_try_computed _ _ _ net (skeleton_page div1 pg1) (skeleton_page div pg)).
      destruct (snd (load_try _ _ _ net (skeleton_page div pg)));
        try discriminate Hrun; injection Hrun as <-;
        eexists; (split; [reflexivity|]);
        cbn [with_commentsList console_error commentsDiv commentsList] in *;
        (split; [now rewrite Hd1, Hd | reflexivity]).
    + unfold configured in Hc. apply negb_false_iff in Hc.
      unfold initMastodon in Hrun. rewrite Hdiv, Hc in Hrun. injection Hrun as <-.
      eexists. unfold initMastodon. cbn [console_error commentsDiv]. rewrite Hdiv, Hc.
      split; [reflexivity|]. split; [exact Hdiv | reflexivity].
  - unfold initMastodon in Hrun. rewrite Hdiv in Hrun. injection Hrun as <-.
    exists pg. unfold initMastodon. rewrite Hdiv. repeat split.
Qed.

Lemma initMastodon_again_witness :
  let net := Response true 200
               (Json {| descendants := Some [example_comment "Ann" "<p>hi</p>"] |}) in
  exists pg1 pg2,
    @initMastodon example_platform net (example_page example_attributes) = Settled pg1
    /\ @initMastodon example_platform net pg1 = Settled pg2
    /\ commentsList pg2 = commentsList pg1
    /\ List.length (requests pg2) = 2.
Proof.
  intros net. eexists.
  destruct (@initMastodon_again example_platform net (example_page example_attributes) _
              eq_refl) as [pg2 [E [_ Hl]]].
  exists pg2. split; [reflexivity|]. split; [exact E|]. split; [exact Hl|].
  vm_compute in E. injection E as <-. reflexivity.
Defined.

(** ** The URL of the request *)

Lemma percent_encoding_safe (c : ascii) :
  forall_chars url_safe
    (if uri_unreserved c then String c EmptyString
     else String "%" (String (hex_digit (nat_of_ascii c / 16))
                        (String (hex_digit (nat_of_ascii c mod 16)) EmptyString)))
  = true.
Proof. destruct c as [[] [] [] [] [] [] [] []]; reflexivity. Qed.

Lemma encodeURIComponent_safe (s : string) :
  forall_chars url_safe (encodeURIComponent s) = true.
Proof.
  unfold encodeURIComponent. induction s as [|c s IH]; [reflexivity|].
  cbn [flat_map_chars]. now rewrite forall_chars_append, percent_encoding_safe, IH.
Qed.

Lemma length_encodeURIComponent (s : string) :
  String.length s <= String.length (encodeURIComponent s).
Proof.
  unfold encodeURIComponent. induction s as [|c s IH]; [apply Nat.le_refl|].
  cbn [flat_map_chars]. rewrite length_append.
  destruct (uri_unreserved c); cbn [String.length]; lia.
Qed.

Lemma encodeURIComponent_cons (c : ascii) (s : string) :
  encodeURIComponent (String c s)
  = (if uri_unreserved c then String c EmptyString
     else String "%" (String (hex_digit (nat_of_ascii c / 16))
                        (String (hex_digit (nat_of_ascii c mod 16)) EmptyString)))
    ++ encodeURIComponent s.
Proof. reflexivity. Qed.

Lemma encodeURIComponent_fixed (s : string) :
  encodeURIComponent s = s -> forall_chars uri_unreserved s = true.
Proof.
  induction s as [|c s IH]; [reflexivity|].
  pose proof (length_encodeURIComponent s) as Hlen.
  rewrite encodeURIComponent_cons. cbn [forall_chars].
  destruct (uri_unreserved c) eqn:Ec; cbn [append]; intros E.
  - injection E as E. now rewrite IH.
  - assert (El : String.length (String "%" (String (hex_digit (nat_of_ascii c / 16))
                   (String (hex_digit (nat_of_ascii c mod 16)) (encodeURIComponent s))))
                 = String.length (String c s)) by now rewrite E.
    cbn [String.length] in El. lia.
Qed.

(** X11.  In the URL of the request the host and the post identifier
    stand between the fixed parts in a form that holds only unreserved
    characters and percent signs, so neither can add a slash, a colon, a
    question mark, a hash or an at sign to the URL; and they stand there
    unchanged exactly when they hold unreserved characters only. *)
Theorem context_url_encoded (host postId : string) :
  exists h p,
    context_url host postId = "https://" ++ h ++ "/api/v1/statuses/" ++ p ++ "/context"
    /\ forall_chars url_safe h = true /\ forall_chars url_safe p = true
    /\ (forall c, In c ["/"; ":"; "?"; "#"; "@"]%char -> mem c h = false /\ mem c p = false)
    /\ (h = host <-> forall_chars uri_unreserved host = true)
    /\ (p = postId <-> forall_chars uri_unreserved postId = true).
Proof.
  exists (encodeURIComponent host), (encodeURIComponent postId).
  split; [reflexivity|].
  split; [apply encodeURIComponent_safe|]. split; [apply encodeURIComponent_safe|].
  split.
  - intros c Hc. split;
      apply (forall_chars_mem url_safe); try apply encodeURIComponent_safe;
      simpl in Hc; decompose [or] Hc; subst; (reflexivity || contradiction).
  - split; split;
      (apply encodeURIComponent_fixed || apply encodeURIComponent_unreserved).
Qed.

(** ** The two source files on plain input *)

Lemma andb_true_3 (a b c : bool) : a && b && c = true -> a = true /\ b = true /\ c = true.
Proof. destruct a, b, c; intros E; try discriminate E; repeat split. Qed.

Lemma Variant_emojify_pass_plain (content : string) (emoji : Emoji.t) :
  plain_emoji emoji = true ->
  Variant.emojify_pass content emoji = emojify_pass content emoji.
Proof.
  unfold plain_emoji. intros Hp. apply andb_true_iff in Hp as [Hu Hs].
  unfold Variant.emojify_pass, emojify_pass.
  now rewrite (escapeHtml_plain _ Hu), (escapeHtml_plain _ Hs).
Qed.

Lemma Variant_emojify_plain (content : string) (emojis : option (list Emoji.t)) :
  plain_list plain_emoji emojis = true ->
  Variant.emojify content emojis = emojify content emojis.
Proof.
  destruct emojis as [l|]; [|reflexivity]. cbn [plain_list]. intros Hp.
  rewrite emojify_Some.
  replace (Variant.emojify content (Some l)) with (foldM Variant.emojify_pass l content)
    by (destruct l; reflexivity).
  revert content. induction l as [|e l IH]; intros content; [reflexivity|].
  cbn [forallb] in Hp. apply andb_true_iff in Hp as [He Hl].
  cbn [foldM]. rewrite (Variant_emojify_pass_plain content e He).
  destruct (emojify_pass content e); cbn [bind]; [now apply IH | reflexivity | reflexivity].
Qed.

Lemma or_text_or_else (a : option string) (d : string) :
  or_text (or_else a EmptyString) d = or_else a d.
Proof.
  unfold or_text, or_else. destruct a as [s|]; [|reflexivity].
  destruct (s =? "")%string eqn:E; [reflexivity | now rewrite E].
Qed.

Lemma Variant_media_template_plain (media : Media.t) :
  plain_media media = true -> Variant.media_template media = media_template media.
Proof.
  unfold plain_media. intros Hp. apply andb_true_3 in Hp as [Hu [Hv Hm]].
  unfold Variant.media_template, media_template.
  now rewrite (escapeHtml_plain _ Hu), (escapeHtml_plain _ Hv), (escapeHtml_plain _ Hm),
    !or_text_or_else.
Qed.

Lemma Variant_attachments_plain (l : option (list Media.t)) :
  plain_list plain_media l = true -> Variant.attachments l = attachments l.
Proof.
  destruct l as [[|m l]|]; try reflexivity. cbn [plain_list]. intros Hp.
  unfold Variant.attachments, attachments. rewrite !fold_left_append_join.
  do 3 f_equal. clear - Hp. revert Hp. generalize (m :: l) as k.
  induction k as [|x k IH]; [reflexivity|].
  cbn [forallb map]. intros Hp. apply andb_true_iff in Hp as [Hx Hk].
  now rewrite (Variant_media_template_plain x Hx), IH.
Qed.

Lemma Variant_renderComment_plain `{Platform} (comment : Comment.t) (lang : string) :
  plain_comment comment = true ->
  Variant.renderComment comment lang = renderComment comment lang.
Proof.
  unfold plain_comment. intros Hp.
  apply andb_true_iff in Hp as [Hp Hm]. apply andb_true_iff in Hp as [Hp He].
  apply andb_true_3 in Hp as [Hu [Ha Hc]].
  unfold Variant.renderComment, renderComment.
  now rewrite (Variant_emojify_plain _ _ He), (Variant_attachments_plain _ Hm),
    (escapeHtml_plain _ Hu), (escapeHtml_plain _ Ha), (escapeHtml_plain _ Hc).
Qed.

Lemma Variant_renderComments_plain `{Platform}
    (comments : option (list Comment.t)) (lang : string) :
  plain_list plain_comment comments = true ->
  Variant.renderComments comments lang = renderComments comments lang.
Proof.
  destruct comments as [[|c l]|]; try reflexivity. cbn [plain_list]. intros Hp.
  unfold Variant.renderComments, renderComments. f_equal.
  revert Hp. generalize (c :: l) as k.
  induction k as [|x k IH]; [reflexivity|].
  cbn [forallb mapM]. intros Hp. apply andb_true_iff in Hp as [Hx Hk].
  now rewrite (Variant_renderComment_plain x lang Hx), IH.
Qed.

(** ** The two loaders *)

(** X13.  The loader of the second source file checks neither the host
    nor the post identifier: for every host and post identifier it sends
    its one request, to the URL with both put in as they are, and it
    leaves the outer container alone. *)
Theorem Variant_loader_sends `{Platform}
    (host postId lang : string) (net : fetch_result) (pg pg' : page) :
  completion_page (Variant.loadMastodonComments host postId lang net pg) = Some pg' ->
  requests pg'
  = (requests pg ++ [("https://" ++ host ++ "/api/v1/statuses/" ++ postId ++ "/context")%string])%list
  /\ commentsDiv pg' = commentsDiv pg.
Proof.
  unfold Variant.loadMastodonComments, Variant.load_try, Variant.context_url.
  destruct net as [e | ok status b];
    [| destruct ok;
       [destruct b as [e | data];
        [| destruct (Variant.renderComments _ lang) as [html | error |]] |]];
    cbn [negb bind]; unfold set_commentsList;
    cbn [send_request console_error commentsList];
    destruct (commentsList pg); cbn [completion_page];
    intros E; try discriminate E; injection E as <-; split; reflexivity.
Qed.

Lemma Variant_loader_sends_witness :
  let pg := {| commentsDiv := None; commentsList := Some loading_html;
               console := []; requests := [] |} in
  exists pg',
    @Variant.loadMastodonComments example_platform "example.com/evil" "12a" "en"
      (FetchRejected TypeError) pg = Settled pg'
    /\ requests pg' = ["https://example.com/evil/api/v1/statuses/12a/context"]
    /\ requests pg = []
    /\ test_host "example.com/evil" = false.
Proof.
  intros pg. eexists. split; [reflexivity|].
  split; [|split; reflexivity].
  exact (proj1 (@Variant_loader_sends example_platform "example.com/evil" "12a" "en"
                  (FetchRejected TypeError) pg _ eq_refl)).
Defined.

(** ** What the second source file writes as it is *)

Lemma occurs_prefix (p s : string) : prefix p s = true -> occurs p s = true.
Proof. intros H. destruct s; cbn [occurs]; now rewrite H. Qed.

Lemma occurs_append_r (p a s : string) : occurs p s = true -> occurs p (a ++ s) = true.
Proof.
  intros H. induction a as [|x a IH]; [exact H|].
  cbn [append]. rewrite occurs_cons, IH. apply orb_true_r.
Qed.

Lemma occurs_here (p b : string) : occurs p (p ++ b) = true.
Proof. apply occurs_prefix, prefix_append. Qed.

Lemma occurs_at (n : nat) (p s : string) :
  prefix p (drop n s) = true -> occurs p s = true.
Proof.
  revert s; induction n as [|n IH]; intros s H.
  - now apply occurs_prefix.
  - destruct s as [|x s]; [now apply occurs_prefix|].
    rewrite occurs_cons. cbn [drop] in H. rewrite (IH s H). apply orb_true_r.
Qed.

Lemma prefix_append_same (a x y : string) : prefix (a ++ x) (a ++ y) = prefix x y.
Proof.
  induction a as [|c a IH]; [reflexivity|].
  cbn [append prefix]. destruct (ascii_dec c c); [exact IH | congruence].
Qed.

Lemma Value_inj {A : Type} (a b : A) : Value a = Value b -> a = b.
Proof. now intros [= ->]. Qed.

Lemma occurs_fill_skip (p : string) (x : piece) (t : list piece) :
  occurs p (fill t) = true -> occurs p (fill (x :: t)) = true.
Proof. intros H. cbn [fill]. now apply occurs_append_r. Qed.

(** X15.  In a fragment of the renderer of the second source file the
    avatar URL, the profile URL and the permalink of the reply stand
    between the quotes of their attributes as the server sent them, with
    no character replaced. *)
Theorem Variant_renderComment_verbatim `{Platform}
    (comment : Comment.t) (lang html : string) :
  Variant.renderComment comment lang = Value html ->
  let q := String dquote EmptyString in
  occurs ("<img src=" ++ q ++ Account.avatar (Comment.account comment) ++ q ++ " alt=") html
  = true
  /\ occurs ("<a href=" ++ q ++ Account.url (Comment.account comment) ++ q ++ " target=") html
     = true
  /\ occurs ("<a href=" ++ q ++ Comment.url comment ++ q ++ " target=") html = true.
Proof.
  unfold Variant.renderComment. intros Hr.
  destruct (Variant.emojify _ _) as [content| |]; cbn [bind] in Hr; try discriminate.
  destruct (formatDate _ _) as [timestamp| |]; cbn [bind] in Hr; try discriminate.
  apply Value_inj in Hr. subst html. cbv zeta. unfold comment_template.
  split; [|split].
  - cbn [fill piece_text]. apply (occurs_at 106). cbn [append drop]. simpl prefix.
    rewrite prefix_append_same. reflexivity.
  - do 4 apply occurs_fill_skip. cbn [fill piece_text].
    apply (occurs_at 119). cbn [append drop]. simpl prefix.
    rewrite prefix_append_same. reflexivity.
  - do 12 apply occurs_fill_skip. cbn [fill piece_text].
    apply (occurs_at 65). cbn [append drop]. simpl prefix.
    rewrite prefix_append_same. reflexivity.
Qed.

Lemma Variant_renderComment_verbatim_witness :
  let reply := example_comment "Ann" "<p>hi</p>" in
  exists html,
    @Variant.renderComment example_platform reply "en" = Value html
    /\ occurs (tq "<img src=~https://example.social/a.png~ alt=") html = true.
Proof.
  intros reply. eexists. split; [reflexivity|].
  exact (proj1 (@Variant_renderComment_verbatim example_platform reply "en" _ eq_refl)).
Defined.

(** ** The requests of initMastodon *)

(** X16.  A run of initMastodon sends a request exactly when the page has
    the container, the container names a host and a post identifier, and
    both pass their checks; it then sends one request, to the context URL
    of that host and post. *)
Theorem initMastodon_requests `{Platform} (net : fetch_result) (pg pg' : page) :
  completion_page (initMastodon net pg) = Some pg' ->
  requests pg'
  = match commentsDiv pg with
    | Some div =>
        if configured div && test_host (page_host div) && test_post_id (page_post_id div)
        then (requests pg ++ [context_url (page_host div) (page_post_id div)])%list
        else requests pg
    | None => requests pg
    end.
Proof.
  destruct (commentsDiv pg) as [div|] eqn:Hdiv.
  - destruct (configured div) eqn:Hc; cbn [andb].
    + rewrite (initMastodon_unfold net pg div Hdiv Hc), loadMastodonComments_cases.
      cbv zeta.
      assert (Hreq :
        requests (fst (load_try (page_host div) (page_post_id div) (page_language div) net
                         (skeleton_page div pg)))
        = if test_host (page_host div) && test_post_id (page_post_id div)
          then (requests pg ++ [context_url (page_host div) (page_post_id div)])%list
          else requests pg).
      { destruct (load_try_requests (page_host div) (page_post_id div) (page_language div)
                    net (skeleton_page div pg)) as [[Hv [E _]] | [Hv E]];
          rewrite E, Hv; reflexivity. }
      cbn [skeleton_page commentsList].
      destruct (snd (load_try _ _ _ net (skeleton_page div pg)));
        cbn [completion_page]; intros E; try discriminate E; injection E as <-;
        exact Hreq.
    + unfold configured in Hc. apply negb_false_iff in Hc.
      unfold initMastodon. rewrite Hdiv, Hc. cbn [completion_page].
      intros [= <-]. reflexivity.
  - unfold initMastodon. rewrite Hdiv. cbn [completion_page]. intros [= <-]. reflexivity.
Qed.

Lemma initMastodon_requests_witness :
  let bad := example_page [("data-mastodon-host", "example.com/evil");
                           ("data-mastodon-post-id", "1")] in
  exists pg1 pg2,
    @initMastodon example_platform (FetchRejected TypeError) bad = Settled pg1
    /\ requests pg1 = []
    /\ @initMastodon example_platform (FetchRejected TypeError)
         (example_page example_attributes) = Settled pg2
    /\ requests pg2 = ["https://example.social/api/v1/statuses/1/context"].
Proof.
  intros bad. eexists. eexists.
  split; [reflexivity|]. split.
  - exact (@initMastodon_requests example_platform (FetchRejected TypeError) bad _ eq_refl).
  - split; [reflexivity|].
    exact (@initMastodon_requests example_platform (FetchRejected TypeError)
             (example_page example_attributes) _ eq_refl).
Defined.

(* ================================================================= *)
(** * The renderers on the JSON of the server *)

(** ** A JSON reply whose texts are strings *)

Lemma escapeHtml_or_value (v : value) (d : string) :
  escapeHtml_value (or_value v (Str d)) = Value (escapeHtml (or_else (text_of v) d)).
Proof.
  destruct v as [| |s]; try reflexivity.
  unfold or_value, or_else. cbn [truthy text_of].
  destruct (s =? "")%string; reflexivity.
Qed.

Lemma to_text_or_value (v : value) (d : string) :
  to_text (or_value v (Str d)) = or_else (text_of v) d.
Proof.
  destruct v as [| |s]; try reflexivity.
  unfold or_value, or_else. cbn [truthy text_of].
  destruct (s =? "")%string; reflexivity.
Qed.

Lemma Json_media_pass_decoded (media : Json.Media.t) (m : Media.t) :
  decode_media media = Some m -> Json.media_pass media = Value (media_template m).
Proof.
  unfold decode_media, Json.media_pass, media_template.
  destruct (Json.Media.url media) as [| |u]; try discriminate.
  destruct (Json.Media.preview_url media) as [| |p]; try discriminate.
  intros [= <-]. cbn [escapeHtml_value bind Media.type Media.url Media.preview_url
                        Media.mime_type Media.description].
  rewrite escapeHtml_or_value. cbn [bind].
  assert (E : forall k, In k ["image"; "video"; "gifv"; "audio"] ->
                        (to_text (Json.Media.type media) =? k)%string
                        = strict_eq (Json.Media.type media) k).
  { intros k Hk. destruct (Json.Media.type media); try reflexivity;
      cbn in Hk; decompose [or] Hk; subst; try reflexivity; contradiction. }
  rewrite !E by (cbn; tauto).
  destruct (strict_eq (Json.Media.type media) "image").
  - rewrite escapeHtml_or_value. reflexivity.
  - destruct (strict_eq (Json.Media.type media) "video"
              || strict_eq (Json.Media.type media) "gifv"); [reflexivity|].
    destruct (strict_eq (Json.Media.type media) "audio"); reflexivity.
Qed.

Lemma Json_media_pass_missing (media : Json.Media.t) :
  decode_media media = None -> Json.media_pass media = Throws TypeError.
Proof.
  unfold decode_media, Json.media_pass.
  destruct (Json.Media.url media) as [| |u]; try reflexivity.
  destruct (Json.Media.preview_url media) as [| |p]; try reflexivity.
  discriminate.
Qed.

Lemma Json_attachments_fold (l : list Json.Media.t) (ms : list Media.t) (start : string) :
  decode_all decode_media l = Some ms ->
  foldM (fun attachmentsHtml media =>
           template <- Json.media_pass media ;;
           Value (attachmentsHtml ++ fill template)) l start
  = Value (start ++ join (map (fun m => fill (media_template m)) ms)).
Proof.
  revert ms start; induction l as [|x l IH]; intros ms start.
  - intros [= <-]. cbn. now rewrite append_nil_r.
  - cbn [decode_all]. destruct (decode_media x) as [m|] eqn:Ex; [|discriminate].
    destruct (decode_all decode_media l) as [ms'|]; [|discriminate].
    intros [= <-]. cbn [foldM]. rewrite (Json_media_pass_decoded x m Ex). cbn [bind].
    rewrite (IH ms' _ eq_refl). cbn [map join]. now rewrite append_assoc.
Qed.

Lemma decode_all_nil {A B : Type} (f : A -> option B) (l : list A) :
  decode_all f l = Some [] -> l = [].
Proof.
  destruct l as [|a l]; [reflexivity|]. cbn [decode_all].
  destruct (f a); [|discriminate]. destruct (decode_all f l); discriminate.
Qed.

Lemma Json_attachments_decoded (l : option (list Json.Media.t)) (ms : option (list Media.t)) :
  decode_list decode_media l = Some ms -> Json.attachments l = Value (attachments ms).
Proof.
  destruct l as [l|]; cbn [decode_list]; [|intros [= <-]; reflexivity].
  destruct (decode_all decode_media l) as [tl|] eqn:E; [|discriminate].
  intros [= <-]. destruct l as [|x l].
  - injection E as <-. reflexivity.
  - unfold Json.attachments. rewrite (Json_attachments_fold _ _ _ E). cbn [bind].
    destruct tl as [|m tl].
    + apply decode_all_nil in E. discriminate E.
    + unfold attachments. rewrite fold_left_append_join. reflexivity.
Qed.

Lemma Json_emojify_pass_decoded (content : string) (emoji : Json.Emoji.t) (e : Emoji.t) :
  decode_emoji emoji = Some e ->
  Json.emojify_pass (Str content) emoji
  = (c <- emojify_pass content e ;; Value (Str c)).
Proof.
  unfold decode_emoji, Json.emojify_pass, emojify_pass.
  destruct (Json.Emoji.shortcode emoji) as [| |sc]; try discriminate.
  destruct (Json.Emoji.url emoji) as [| |u]; try discriminate.
  intros [= <-]. cbn [escapeHtml_value bind to_text Emoji.url Emoji.shortcode].
  destruct (RegExp (":" ++ sc ++ ":")); reflexivity.
Qed.

Lemma Json_emojify_fold (l : list Json.Emoji.t) (es : list Emoji.t) (content : string) :
  decode_all decode_emoji l = Some es ->
  foldM Json.emojify_pass l (Str content)
  = (c <- foldM emojify_pass es content ;; Value (Str c)).
Proof.
  revert es content; induction l as [|x l IH]; intros es content.
  - intros [= <-]. reflexivity.
  - cbn [decode_all]. destruct (decode_emoji x) as [e|] eqn:Ex; [|discriminate].
    destruct (decode_all decode_emoji l) as [es'|]; [|discriminate].
    intros [= <-]. cbn [foldM]. rewrite (Json_emojify_pass_decoded content x e Ex).
    destruct (emojify_pass content e) as [c| |]; cbn [bind]; try reflexivity.
    now apply IH.
Qed.

Lemma Json_emojify_decoded (content : string) (l : option (list Json.Emoji.t))
    (es : option (list Emoji.t)) :
  decode_list decode_emoji l = Some es ->
  Json.emojify (Str content) l = (c <- emojify content es ;; Value (Str c)).
Proof.
  destruct l as [l|]; cbn [decode_list]; [|intros [= <-]; reflexivity].
  destruct (decode_all decode_emoji l) as [tl|] eqn:E; [|discriminate].
  intros [= <-]. rewrite emojify_Some, <- (Json_emojify_fold l tl content E).
  destruct l; reflexivity.
Qed.

(** On a JSON reply whose texts are strings, the renderer is the one of
    the records. *)
Lemma Json_renderComment_decoded `{Platform}
    (comment : Json.Comment.t) (c : Comment.t) (lang : string) :
  decode_comment comment = Some c ->
  Json.renderComment comment lang = renderComment c lang.
Proof.
  unfold decode_comment, Json.renderComment, renderComment.
  destruct (Json.Account.username (Json.Comment.account comment)) as [| |un] eqn:Eun;
    try discriminate.
  destruct (Json.Account.url (Json.Comment.account comment)) as [| |au]; try discriminate.
  destruct (Json.Account.avatar (Json.Comment.account comment)) as [| |av]; try discriminate.
  destruct (Json.Comment.content comment) as [| |body]; try discriminate.
  destruct (Json.Comment.url comment) as [| |cu]; try discriminate.
  destruct (decode_list decode_emoji (Json.Comment.emojis comment)) as [es|] eqn:Ee;
    [|discriminate].
  destruct (decode_list decode_media (Json.Comment.media_attachments comment)) as [ms|] eqn:Em;
    [|discriminate].
  intros [= <-].
  cbn [Comment.account Comment.content Comment.emojis Comment.created_at Comment.url
         Comment.media_attachments Account.display_name Account.username Account.url
         Account.avatar].
  rewrite escapeHtml_or_value. cbn [escapeHtml_value bind].
  rewrite (Json_emojify_decoded body _ _ Ee).
  destruct (emojify body es) as [content| |]; cbn [bind]; try reflexivity.
  destruct (formatDate (Json.Comment.created_at comment) lang) as [timestamp| |];
    cbn [bind]; try reflexivity.
  rewrite (Json_attachments_decoded _ _ Em). reflexivity.
Qed.

Lemma mapM_decoded {A B C : Type} (d : A -> option B) (f : A -> outcome C)
    (g : B -> outcome C) :
  (forall a b, d a = Some b -> f a = g b) ->
  forall l bs, decode_all d l = Some bs -> mapM f l = mapM g bs.
Proof.
  intros Hfg. induction l as [|a l IH]; intros bs.
  - intros [= <-]. reflexivity.
  - cbn [decode_all]. destruct (d a) as [b|] eqn:Ea; [|discriminate].
    destruct (decode_all d l) as [bs'|]; [|discriminate].
    intros [= <-]. cbn [mapM]. now rewrite (Hfg a b Ea), (IH bs' eq_refl).
Qed.

Lemma decode_all_cons {A B : Type} (d : A -> option B) (a : A) (l : list A) (bs : list B) :
  decode_all d (a :: l) = Some bs -> exists b bs', bs = b :: bs'.
Proof.
  cbn [decode_all]. destruct (d a) as [b|]; [|discriminate].
  destruct (decode_all d l) as [bs'|]; [|discriminate].
  intros [= <-]. now exists b, bs'.
Qed.

Lemma Json_renderComments_decoded `{Platform}
    (replies : list Json.Comment.t) (comments : list Comment.t) (lang : string) :
  decode_all decode_comment replies = Some comments ->
  Json.renderComments (Some replies) lang = renderComments (Some comments) lang.
Proof.
  intros E. destruct replies as [|r replies].
  - injection E as <-. reflexivity.
  - destruct (decode_all_cons _ _ _ _ E) as [c [comments' ->]].
    unfold Json.renderComments, renderComments.
    now rewrite (mapM_decoded decode_comment _ (fun c => renderComment c lang)
                   (fun a b => Json_renderComment_decoded a b lang) _ _ E).
Qed.

(** ** The second source file on the same JSON *)

Lemma JsonVariant_media_pass_decoded (media : Json.Media.t) (m : Media.t) :
  decode_media media = Some m ->
  JsonVariant.media_pass media = Value (Variant.media_template m).
Proof.
  unfold decode_media, JsonVariant.media_pass, Variant.media_template.
  destruct (Json.Media.url media) as [| |u]; try discriminate.
  destruct (Json.Media.preview_url media) as [| |p]; try discriminate.
  intros [= <-]. cbn [to_text Media.type Media.url Media.preview_url
                        Media.mime_type Media.description].
  assert (E : forall k, In k ["image"; "video"; "gifv"; "audio"] ->
                        (to_text (Json.Media.type media) =? k)%string
                        = strict_eq (Json.Media.type media) k).
  { intros k Hk. destruct (Json.Media.type media); try reflexivity;
      cbn in Hk; decompose [or] Hk; subst; try reflexivity; contradiction. }
  rewrite !E by (cbn; tauto). rewrite !to_text_or_value.
  destruct (strict_eq (Json.Media.type media) "image").
  - rewrite escapeHtml_or_value. reflexivity.
  - destruct (strict_eq (Json.Media.type media) "video"
              || strict_eq (Json.Media.type media) "gifv"); [reflexivity|].
    destruct (strict_eq (Json.Media.type media) "audio"); reflexivity.
Qed.

Lemma JsonVariant_attachments_fold (l : list Json.Media.t) (ms : list Media.t)
    (start : string) :
  decode_all decode_media l = Some ms ->
  foldM (fun attachmentsHtml media =>
           template <- JsonVariant.media_pass media ;;
           Value (attachmentsHtml ++ fill template)) l start
  = Value (start ++ join (map (fun m => fill (Variant.media_template m)) ms)).
Proof.
  revert ms start; induction l as [|x l IH]; intros ms start.
  - intros [= <-]. cbn. now rewrite append_nil_r.
  - cbn [decode_all]. destruct (decode_media x) as [m|] eqn:Ex; [|discriminate].
    destruct (decode_all decode_media l) as [ms'|]; [|discriminate].
    intros [= <-]. cbn [foldM]. rewrite (JsonVariant_media_pass_decoded x m Ex). cbn [bind].
    rewrite (IH ms' _ eq_refl). cbn [map join]. now rewrite append_assoc.
Qed.

Lemma JsonVariant_attachments_decoded (l : option (list Json.Media.t))
    (ms : option (list Media.t)) :
  decode_list decode_media l = Some ms ->
  JsonVariant.attachments l = Value (Variant.attachments ms).
Proof.
  destruct l as [l|]; cbn [decode_list]; [|intros [= <-]; reflexivity].
  destruct (decode_all decode_media l) as [tl|] eqn:E; [|discriminate].
  intros [= <-]. destruct l as [|x l].
  - injection E as <-. reflexivity.
  - unfold JsonVariant.attachments. rewrite (JsonVariant_attachments_fold _ _ _ E).
    cbn [bind]. destruct tl as [|m tl].
    + apply decode_all_nil in E. discriminate E.
    + unfold Variant.attachments. rewrite fold_left_append_join. reflexivity.
Qed.

Lemma JsonVariant_emojify_pass_decoded (content : string) (emoji : Json.Emoji.t)
    (e : Emoji.t) :
  decode_emoji emoji = Some e ->
  JsonVariant.emojify_pass (Str content) emoji
  = (c <- Variant.emojify_pass content e ;; Value (Str c)).
Proof.
  unfold decode_emoji, JsonVariant.emojify_pass, Variant.emojify_pass.
  destruct (Json.Emoji.shortcode emoji) as [| |sc]; try discriminate.
  destruct (Json.Emoji.url emoji) as [| |u]; try discriminate.
  intros [= <-]. cbn [bind to_text Emoji.url Emoji.shortcode].
  destruct (RegExp (":" ++ sc ++ ":")); reflexivity.
Qed.

Lemma JsonVariant_emojify_decoded (content : string) (l : option (list Json.Emoji.t))
    (es : option (list Emoji.t)) :
  decode_list decode_emoji l = Some es ->
  JsonVariant.emojify (Str content) l = (c <- Variant.emojify content es ;; Value (Str c)).
Proof.
  destruct l as [l|]; cbn [decode_list]; [|intros [= <-]; reflexivity].
  destruct (decode_all decode_emoji l) as [tl|] eqn:E; [|discriminate].
  intros [= <-].
  replace (JsonVariant.emojify (Str content) (Some l))
    with (foldM JsonVariant.emojify_pass l (Str content)) by (destruct l; reflexivity).
  replace (Variant.emojify content (Some tl)) with (foldM Variant.emojify_pass tl content)
    by (destruct tl; reflexivity).
  revert tl content E. induction l as [|x l IH]; intros tl content.
  - intros [= <-]. reflexivity.
  - cbn [decode_all]. destruct (decode_emoji x) as [e|] eqn:Ex; [|discriminate].
    destruct (decode_all decode_emoji l) as [es'|]; [|discriminate].
    intros [= <-]. cbn [foldM]. rewrite (JsonVariant_emojify_pass_decoded content x e Ex).
    destruct (Variant.emojify_pass content e) as [c| |]; cbn [bind]; try reflexivity.
    now apply IH.
Qed.

Lemma JsonVariant_renderComment_decoded `{Platform}
    (comment : Json.Comment.t) (c : Comment.t) (lang : string) :
  decode_comment comment = Some c ->
  JsonVariant.renderComment comment lang = Variant.renderComment c lang.
Proof.
  unfold decode_comment, JsonVariant.renderComment, Variant.renderComment.
  destruct (Json.Account.username (Json.Comment.account comment)) as [| |un] eqn:Eun;
    try discriminate.
  destruct (Json.Account.url (Json.Comment.account comment)) as [| |au]; try discriminate.
  destruct (Json.Account.avatar (Json.Comment.account comment)) as [| |av]; try discriminate.
  destruct (Json.Comment.content comment) as [| |body]; try discriminate.
  destruct (Json.Comment.url comment) as [| |cu]; try discriminate.
  destruct (decode_list decode_emoji (Json.Comment.emojis comment)) as [es|] eqn:Ee;
    [|discriminate].
  destruct (decode_list decode_media (Json.Comment.media_attachments comment)) as [ms|] eqn:Em;
    [|discriminate].
  intros [= <-].
  cbn [Comment.account Comment.content Comment.emojis Comment.created_at Comment.url
         Comment.media_attachments Account.display_name Account.username Account.url
         Account.avatar].
  rewrite escapeHtml_or_value. cbn [escapeHtml_value bind to_text].
  rewrite (JsonVariant_emojify_decoded body _ _ Ee).
  destruct (Variant.emojify body es) as [content| |]; cbn [bind]; try reflexivity.
  destruct (formatDate (Json.Comment.created_at comment) lang) as [timestamp| |];
    cbn [bind]; try reflexivity.
  rewrite (JsonVariant_attachments_decoded _ _ Em). reflexivity.
Qed.

Lemma JsonVariant_renderComments_decoded `{Platform}
    (replies : list Json.Comment.t) (comments : list Comment.t) (lang : string) :
  decode_all decode_comment replies = Some comments ->
  JsonVariant.renderComments (Some replies) lang
  = Variant.renderComments (Some comments) lang.
Proof.
  intros E. destruct replies as [|r replies].
  - injection E as <-. reflexivity.
  - destruct (decode_all_cons _ _ _ _ E) as [c [comments' ->]].
    unfold JsonVariant.renderComments, Variant.renderComments.
    now rewrite (mapM_decoded decode_comment _ (fun c => Variant.renderComment c lang)
                   (fun a b => JsonVariant_renderComment_decoded a b lang) _ _ E).
Qed.

(** ** renderComments on the fragments of the replies *)

Lemma join_fold_right (fragments : list string) :
  join fragments = fold_right append EmptyString fragments.
Proof. induction fragments as [|f l IH]; [reflexivity|]. cbn [join fold_right]. now rewrite IH. Qed.

Lemma mapM_joined {A : Type} (f : A -> outcome string) (l : list A) :
  (forall fragments,
      Forall2 (fun a fragment => f a = Value fragment) l fragments ->
      (fragments <- mapM f l ;; Value (join fragments))
      = Value (fold_right append EmptyString fragments)
      /\ List.length fragments = List.length l)
  /\ (forall html,
        (fragments <- mapM f l ;; Value (join fragments)) = Value html ->
        exists fragments,
          Forall2 (fun a fragment => f a = Value fragment) l fragments
          /\ html = fold_right append EmptyString fragments).
Proof.
  split.
  - intros fragments HF. rewrite (mapM_Forall2 _ _ _ HF). cbn [bind].
    rewrite join_fold_right. split; [reflexivity|].
    symmetry. eapply Forall2_length. exact HF.
  - intros html E. destruct (mapM f l) as [fragments| |] eqn:Em; cbn [bind] in E;
      try discriminate E.
    injection E as <-. exists fragments. split; [|apply join_fold_right].
    now apply mapM_Value_Forall2.
Qed.

(** C8.  For an absent or empty collection renderComments gives exactly
    the fixed message, the paragraph of class mastodon-no-comments that
    reads: No comments yet. Be the first to comment on Mastodon!  For a collection that is
    not empty and whose replies render to the fragments [fragments], the
    i-th fragment being what renderComment gives for the i-th reply, it
    gives the concatenation of the fragments in that order, and there are
    as many fragments as replies; and whatever it gives for a collection
    that is not empty is such a concatenation.  So two replies give the
    fragment of the first followed by the fragment of the second.  This
    holds of the replies as the JSON of the server gives them and of the
    replies as records. *)
Theorem renderComments_joins_fragments `{Platform} (lang : string) :
  let message :=
    "<p class=" ++ String "034"%char ("mastodon-no-comments" ++ String "034"%char
       ">No comments yet. Be the first to comment on Mastodon!</p>") in
  (Json.renderComments None lang = Value message
   /\ Json.renderComments (Some []) lang = Value message
   /\ (forall comments fragments,
         comments <> [] ->
         Forall2 (fun comment fragment => Json.renderComment comment lang = Value fragment)
           comments fragments ->
         Json.renderComments (Some comments) lang
         = Value (fold_right append EmptyString fragments)
         /\ List.length fragments = List.length comments)
   /\ (forall comments html,
         comments <> [] ->
         Json.renderComments (Some comments) lang = Value html ->
         exists fragments,
           Forall2 (fun comment fragment => Json.renderComment comment lang = Value fragment)
             comments fragments
           /\ html = fold_right append EmptyString fragments)
   /\ (forall first second fragment1 fragment2,
         Json.renderComment first lang = Value fragment1 ->
         Json.renderComment second lang = Value fragment2 ->
         Json.renderComments (Some [first; second]) lang = Value (fragment1 ++ fragment2)))
  /\ (renderComments None lang = Value message
      /\ renderComments (Some []) lang = Value message
      /\ (forall comments fragments,
            comments <> [] ->
            Forall2 (fun comment fragment => renderComment comment lang = Value fragment)
              comments fragments ->
            renderComments (Some comments) lang
            = Value (fold_right append EmptyString fragments)
            /\ List.length fragments = List.length comments)
      /\ (forall comments html,
            comments <> [] ->
            renderComments (Some comments) lang = Value html ->
            exists fragments,
              Forall2 (fun comment fragment => renderComment comment lang = Value fragment)
                comments fragments
              /\ html = fold_right append EmptyString fragments)
      /\ (forall first second fragment1 fragment2,
            renderComment first lang = Value fragment1 ->
            renderComment second lang = Value fragment2 ->
            renderComments (Some [first; second]) lang = Value (fragment1 ++ fragment2))).
Proof.
  intros message. split.
  - split; [reflexivity|]. split; [reflexivity|]. split; [|split].
    + intros comments fragments Hne HF. destruct comments as [|c l]; [congruence|].
      exact (proj1 (mapM_joined (fun comment => Json.renderComment comment lang) (c :: l))
               fragments HF).
    + intros comments html Hne E. destruct comments as [|c l]; [congruence|].
      exact (proj2 (mapM_joined (fun comment => Json.renderComment comment lang) (c :: l))
               html E).
    + intros first second f1 f2 E1 E2. unfold Json.renderComments. cbn [mapM].
      rewrite E1, E2. cbn [bind join]. now rewrite append_nil_r.
  - split; [reflexivity|]. split; [reflexivity|]. split; [|split].
    + intros comments fragments Hne HF. destruct comments as [|c l]; [congruence|].
      exact (proj1 (mapM_joined (fun comment => renderComment comment lang) (c :: l))
               fragments HF).
    + intros comments html Hne E. destruct comments as [|c l]; [congruence|].
      exact (proj2 (mapM_joined (fun comment => renderComment comment lang) (c :: l))
               html E).
    + intros first second f1 f2 E1 E2. unfold renderComments. cbn [mapM].
      rewrite E1, E2. cbn [bind join]. now rewrite append_nil_r.
Qed.

(** Two replies that differ render to two fragments, the one of the first
    reply before the one of the second. *)
Lemma renderComments_joins_fragments_witness :
  exists fragment1 fragment2,
    @renderComment example_platform (example_comment "Ann" "<p>one</p>") "en"
    = Value fragment1
    /\ @renderComment example_platform (example_comment "Bob" "<p>two</p>") "en"
       = Value fragment2
    /\ fragment1 <> fragment2
    /\ @renderComments example_platform
         (Some [example_comment "Ann" "<p>one</p>"; example_comment "Bob" "<p>two</p>"]) "en"
       = Value (fragment1 ++ fragment2).
Proof.
  eexists. eexists. split; [reflexivity|]. split; [reflexivity|].
  split; [apply String.eqb_neq; reflexivity|].
  exact (proj2 (proj2 (proj2 (proj2 (proj2
           (@renderComments_joins_fragments example_platform "en")))))
           (example_comment "Ann" "<p>one</p>") (example_comment "Bob" "<p>two</p>")
           _ _ eq_refl eq_refl).
Defined.

(** ** The attachments, as the JSON gives them *)

Lemma Json_attachments_missing (l : list Json.Media.t) (start : string) :
  decode_all decode_media l = None ->
  foldM (fun attachmentsHtml media =>
           template <- Json.media_pass media ;;
           Value (attachmentsHtml ++ fill template)) l start
  = Throws TypeError.
Proof.
  revert start; induction l as [|x l IH]; intros start; [discriminate|].
  cbn [decode_all foldM]. destruct (decode_media x) as [m|] eqn:Ex.
  - rewrite (Json_media_pass_decoded x m Ex). cbn [bind].
    destruct (decode_all decode_media l); [discriminate|]. intros _. now apply IH.
  - intros _. now rewrite (Json_media_pass_missing x Ex).
Qed.

Lemma filter_known_kind_none (ms : list Media.t) :
  forallb (fun media => negb (known_kind media)) ms = true -> filter known_kind ms = [].
Proof.
  induction ms as [|m ms IH]; [reflexivity|].
  cbn [forallb filter]. intros Hu. apply andb_true_iff in Hu as [Hm Hu].
  apply negb_true_iff in Hm. rewrite Hm. now apply IH.
Qed.

(** C10.  renderComment does not render every audio attachment with the
    fallback MIME type, nor does it drop every attachment of an unknown
    kind silently.  For each attachment it runs escapeHtml on the URL and
    on the preview URL before it looks at the kind (lines 48-50), and
    escapeHtml throws a TypeError on what is no string.  The server gives
    null as preview URL of an attachment without preview, as audio has
    it.  For a reply with one audio attachment without MIME type whose
    preview URL is null, renderComment throws a TypeError, and so does
    renderComments on a collection that holds the reply; with a preview
    URL the same attachment is rendered with [audio/mpeg]; an attachment
    of unknown kind with null as preview URL throws too.  The renderer of
    the second source file, which does not sanitize URLs, renders the
    audio attachment with [audio/mpeg] and drops the unknown one. *)
Theorem renderComment_null_preview_url :
  @Json.renderComment example_platform
    (example_json_comment (Str "https://example.social/@user/1")
       (Some [example_audio Null])) "en"
  = Throws TypeError
  /\ @Json.renderComments example_platform
       (Some [example_json_comment (Str "https://example.social/@user/1") None;
              example_json_comment (Str "https://example.social/@user/2")
                (Some [example_audio Null])]) "en"
     = Throws TypeError
  /\ (exists html,
        @Json.renderComment example_platform
          (example_json_comment (Str "https://example.social/@user/1")
             (Some [example_audio (Str "https://example.social/song.png")])) "en"
        = Value html
        /\ occurs (tq "<source src=~https://example.social/song.mp3~ type=~audio/mpeg~>") html
           = true)
  /\ Json.attachments
       (Some [{| Json.Media.type := Str "unknown";
                 Json.Media.url := Str "https://example.social/file";
                 Json.Media.preview_url := Null;
                 Json.Media.mime_type := Null;
                 Json.Media.description := Null |}])
     = Throws TypeError
  /\ (exists html,
        @JsonVariant.renderComment example_platform
          (example_json_comment (Str "https://example.social/@user/1")
             (Some [example_audio Null])) "en"
        = Value html
        /\ occurs (tq "<source src=~https://example.social/song.mp3~ type=~audio/mpeg~>") html
           = true)
  /\ JsonVariant.attachments
       (Some [{| Json.Media.type := Str "unknown";
                 Json.Media.url := Str "https://example.social/file";
                 Json.Media.preview_url := Null;
                 Json.Media.mime_type := Null;
                 Json.Media.description := Null |}])
     = Value (attachments_open ++ attachments_close).
Proof.
  split; [reflexivity|]. split; [reflexivity|].
  split; [eexists; split; reflexivity|]. split; [reflexivity|].
  split; [eexists; split; reflexivity|]. reflexivity.
Qed.

(** X5.  Without attachments, absent or empty, there is no attachments
    block: the text that renderComment puts in its place is empty.  For a
    list of attachments that is not empty and in which every URL and
    every preview URL is a string, the block holds the elements of the
    attachments of a known kind, in their order, between its opening and
    its closing tag; an attachment of another kind adds nothing, so a list
    of unknown kinds only gives a block without elements, not the empty
    text; a video or gifv without MIME type is given [video/mp4], an audio
    without MIME type [audio/mpeg].  A list in which a URL or a preview
    URL is no string gives no block: it throws a TypeError.  The fragment
    of a reply holds the content that emojify gave where the content goes
    and the block, and nothing else of the attachments, where the block
    goes. *)
Theorem attachments_known_kinds (l : list Json.Media.t) :
  Json.attachments None = Value EmptyString
  /\ Json.attachments (Some []) = Value EmptyString
  /\ (forall ms,
        l <> [] -> decode_all decode_media l = Some ms ->
        Json.attachments (Some l)
        = Value (String "<" ("div class=" ++ String "034"%char ("mastodon-attachments"
                   ++ String "034"%char (">"
                   ++ fold_right append EmptyString
                        (map (fun media => fill (media_template media))
                           (filter known_kind ms))
                   ++ "</div>"))))
        /\ (forallb (fun media => negb (known_kind media)) ms = true ->
            Json.attachments (Some l) = Value (attachments_open ++ attachments_close)))
  /\ (l <> [] -> decode_all decode_media l = None ->
      Json.attachments (Some l) = Throws TypeError)
  /\ (forall media url preview_url,
        Json.Media.url media = Str url -> Json.Media.preview_url media = Str preview_url ->
        (strict_eq (Json.Media.type media) "image"
         || strict_eq (Json.Media.type media) "video"
         || strict_eq (Json.Media.type media) "gifv"
         || strict_eq (Json.Media.type media) "audio" = false ->
         Json.media_pass media = Value [])
        /\ (truthy (Json.Media.mime_type media) = false ->
            (strict_eq (Json.Media.type media) "video"
             || strict_eq (Json.Media.type media) "gifv" = true ->
             Json.media_pass media
             = Value (video_template (escapeHtml url) (escapeHtml preview_url) "video/mp4"))
            /\ (strict_eq (Json.Media.type media) "audio" = true ->
                Json.media_pass media
                = Value (audio_template (escapeHtml url) "audio/mpeg"))))
  /\ (forall `{Platform} comment lang html,
        Json.renderComment comment lang = Value html ->
        exists avatarUrl displayName accountUrl username commentUrl timestamp content block,
          Json.emojify (Json.Comment.content comment) (Json.Comment.emojis comment)
          = Value content
          /\ Json.attachments (Json.Comment.media_attachments comment) = Value block
          /\ html = fill (comment_template avatarUrl displayName accountUrl username
                            commentUrl timestamp (to_text content) block)).
Proof.
  split; [reflexivity|]. split; [reflexivity|]. split; [|split; [|split; [|]]].
  - intros ms Hne E.
    assert (Hb : Json.attachments (Some l)
                 = Value (attachments_open
                          ++ join (map (fun media => fill (media_template media))
                                     (filter known_kind ms))
                          ++ attachments_close)).
    { rewrite (Json_attachments_decoded (Some l) (Some ms)) by (cbn; now rewrite E).
      destruct ms as [|m ms]; [apply decode_all_nil in E; congruence|].
      rewrite attachments_Some by discriminate. now rewrite join_map_filter. }
    split.
    + rewrite Hb, join_fold_right. reflexivity.
    + intros Hu. rewrite Hb, (filter_known_kind_none ms Hu). reflexivity.
  - intros Hne E. destruct l as [|x l]; [congruence|].
    unfold Json.attachments. now rewrite (Json_attachments_missing _ _ E).
  - intros media url preview_url Eu Ep. unfold Json.media_pass. rewrite Eu, Ep.
    cbn [escapeHtml_value bind]. rewrite escapeHtml_or_value. cbn [bind]. split.
    + intros Hk. apply orb_false_iff in Hk as [Hk Ha]. apply orb_false_iff in Hk as [Hk Hg].
      apply orb_false_iff in Hk as [Hi Hv]. now rewrite Hi, Hv, Hg, Ha.
    + intros Hm.
      assert (Em : or_else (text_of (Json.Media.mime_type media)) EmptyString = EmptyString).
      { destruct (Json.Media.mime_type media) as [| |s]; try reflexivity.
        cbn [truthy] in Hm. apply negb_false_iff in Hm. cbn [text_of or_else]. now rewrite Hm. }
      rewrite Em. split.
      * intros Hk.
        destruct (strict_eq (Json.Media.type media) "image") eqn:Ei.
        { exfalso. destruct (Json.Media.type media) as [| |k]; try discriminate.
          cbn [strict_eq] in *. apply String.eqb_eq in Ei. subst k. vm_compute in Hk. discriminate Hk. }
        now rewrite Hk.
      * intros Hk.
        destruct (Json.Media.type media) as [| |k]; try discriminate.
        cbn [strict_eq] in *. apply String.eqb_eq in Hk. subst k. reflexivity.
  - intros P comment lang html Hr. unfold Json.renderComment in Hr.
    destruct (escapeHtml_value (or_value _ _)) as [displayName| |]; cbn [bind] in Hr;
      try discriminate.
    destruct (escapeHtml_value (Json.Account.username _)) as [username| |]; cbn [bind] in Hr;
      try discriminate.
    destruct (escapeHtml_value (Json.Account.url _)) as [accountUrl| |]; cbn [bind] in Hr;
      try discriminate.
    destruct (escapeHtml_value (Json.Account.avatar _)) as [avatarUrl| |]; cbn [bind] in Hr;
      try discriminate.
    destruct (Json.emojify _ _) as [content| |]; cbn [bind] in Hr; try discriminate.
    destruct (formatDate _ _) as [timestamp| |]; cbn [bind] in Hr; try discriminate.
    destruct (escapeHtml_value (Json.Comment.url _)) as [commentUrl| |]; cbn [bind] in Hr;
      try discriminate.
    destruct (Json.attachments _) as [block| |]; cbn [bind] in Hr; try discriminate.
    injection Hr as <-.
    exists avatarUrl, displayName, accountUrl, username, commentUrl, timestamp, content, block.
    repeat split.
Qed.

(** Two attachments of an unknown kind, and a song without MIME type. *)
Lemma attachments_known_kinds_witness :
  Json.attachments
    (Some [{| Json.Media.type := Str "unknown";
              Json.Media.url := Str "https://x/u";
              Json.Media.preview_url := Str "https://x/p";
              Json.Media.mime_type := Null;
              Json.Media.description := Null |};
           example_audio (Str "https://x/p")])
  = Value (tq "<div class=~mastodon-attachments~>"
           ++ fill (audio_template "https://example.social/song.mp3" "audio/mpeg")
           ++ "</div>")
  /\ Json.attachments (Some [example_audio (Str "https://x/p"); example_audio Undefined])
     = Throws TypeError.
Proof.
  split.
  - destruct (attachments_known_kinds
                [{| Json.Media.type := Str "unknown";
                    Json.Media.url := Str "https://x/u";
                    Json.Media.preview_url := Str "https://x/p";
                    Json.Media.mime_type := Null;
                    Json.Media.description := Null |};
                 example_audio (Str "https://x/p")]) as [_ [_ [Hk _]]].
    destruct (Hk _ ltac:(discriminate) eq_refl) as [Hb _]. exact Hb.
  - destruct (attachments_known_kinds
                [example_audio (Str "https://x/p"); example_audio Undefined])
      as [_ [_ [_ [Hm _]]]].
    apply Hm; [discriminate | reflexivity].
Defined.

(** ** What a reply must hold to be rendered *)

Lemma decode_all_In {A B : Type} (d : A -> option B) (l : list A) (bs : list B) (a : A) :
  decode_all d l = Some bs -> In a l -> exists b, d a = Some b.
Proof.
  revert bs; induction l as [|x l IH]; intros bs E Ha; [destruct Ha|].
  cbn [decode_all] in E. destruct (d x) as [b|] eqn:Ex; [|discriminate].
  destruct (decode_all d l) as [bs'|]; [|discriminate].
  destruct Ha as [<- | Ha]; [now exists b | now apply (IH bs')].
Qed.

Lemma Json_attachments_value (l : list Json.Media.t) (block : string) :
  Json.attachments (Some l) = Value block ->
  exists ms, decode_all decode_media l = Some ms.
Proof.
  intros E. destruct (decode_all decode_media l) as [ms|] eqn:Ed; [now exists ms|].
  destruct l as [|x l]; [discriminate Ed|].
  unfold Json.attachments in E. rewrite (Json_attachments_missing _ _ Ed) in E.
  discriminate E.
Qed.

Lemma Json_emojify_pass_missing (content : value) (emoji : Json.Emoji.t) :
  decode_emoji emoji = None -> Json.emojify_pass content emoji = Throws TypeError.
Proof.
  unfold decode_emoji, Json.emojify_pass.
  destruct (Json.Emoji.url emoji) as [| |u]; try reflexivity.
  destruct (Json.Emoji.shortcode emoji) as [| |sc]; try reflexivity.
  discriminate.
Qed.

Lemma Json_emojify_pass_content (content : value) (emoji : Json.Emoji.t) (out : value) :
  Json.emojify_pass content emoji = Value out ->
  exists c, content = Str c.
Proof.
  unfold Json.emojify_pass.
  destruct (escapeHtml_value (Json.Emoji.url emoji)); cbn [bind]; try discriminate.
  destruct (escapeHtml_value (Json.Emoji.shortcode emoji)); cbn [bind]; try discriminate.
  destruct (RegExp _); cbn [bind]; try discriminate.
  destruct content as [| |c]; try discriminate. now exists c.
Qed.

Lemma Json_emojify_fold_value (l : list Json.Emoji.t) (content : string) (out : value) :
  foldM Json.emojify_pass l (Str content) = Value out ->
  exists es, decode_all decode_emoji l = Some es.
Proof.
  revert content; induction l as [|x l IH]; intros content E; [now exists []|].
  cbn [foldM] in E. cbn [decode_all].
  destruct (decode_emoji x) as [e|] eqn:Ex.
  - rewrite (Json_emojify_pass_decoded content x e Ex) in E.
    destruct (emojify_pass content e) as [c| |]; cbn [bind] in E; try discriminate.
    destruct (IH c E) as [es ->]. now exists (e :: es).
  - rewrite (Json_emojify_pass_missing _ x Ex) in E. discriminate E.
Qed.

(** X18.  renderComment runs escapeHtml on the user name, the URL and the
    avatar of the account, on the permalink of the reply, on the URL and
    the preview URL of every attachment and on the URL and the shortcode
    of every emoji, and it calls [replace] on the content when there is an
    emoji; each of them throws a TypeError on null and on a missing field.
    So a reply is rendered only if all these are strings; and on a reply
    whose texts are all strings, renderComment is the renderer of the
    records. *)
Theorem Json_renderComment_texts `{Platform} (comment : Json.Comment.t) (lang : string) :
  (forall c, decode_comment comment = Some c ->
             Json.renderComment comment lang = renderComment c lang)
  /\ (forall html,
        Json.renderComment comment lang = Value html ->
        (exists username url avatar permalink,
            Json.Account.username (Json.Comment.account comment) = Str username
            /\ Json.Account.url (Json.Comment.account comment) = Str url
            /\ Json.Account.avatar (Json.Comment.account comment) = Str avatar
            /\ Json.Comment.url comment = Str permalink)
        /\ (forall l media,
              Json.Comment.media_attachments comment = Some l -> In media l ->
              exists url preview_url,
                Json.Media.url media = Str url
                /\ Json.Media.preview_url media = Str preview_url)
        /\ (forall l emoji,
              Json.Comment.emojis comment = Some l -> In emoji l ->
              (exists content, Json.Comment.content comment = Str content)
              /\ exists shortcode url,
                   Json.Emoji.shortcode emoji = Str shortcode
                   /\ Json.Emoji.url emoji = Str url)).
Proof.
  split; [intros c; apply Json_renderComment_decoded|].
  intros html Hr. unfold Json.renderComment in Hr.
  destruct (escapeHtml_value (or_value _ _)) as [displayName| |]; cbn [bind] in Hr;
    try discriminate.
  destruct (Json.Account.username _) as [| |username]; cbn [escapeHtml_value bind] in Hr;
    try discriminate.
  destruct (Json.Account.url _) as [| |url]; cbn [escapeHtml_value bind] in Hr;
    try discriminate.
  destruct (Json.Account.avatar _) as [| |avatar]; cbn [escapeHtml_value bind] in Hr;
    try discriminate.
  destruct (Json.emojify _ _) as [content| |] eqn:Ee; cbn [bind] in Hr; try discriminate.
  destruct (formatDate _ _) as [timestamp| |]; cbn [bind] in Hr; try discriminate.
  destruct (Json.Comment.url comment) as [| |permalink]; cbn [escapeHtml_value bind] in Hr;
    try discriminate.
  destruct (Json.attachments _) as [block| |] eqn:Ea; cbn [bind] in Hr; try discriminate.
  split; [|split].
  - now exists username, url, avatar, permalink.
  - intros l media El Hm. rewrite El in Ea.
    destruct (Json_attachments_value l block Ea) as [ms Ed].
    destruct (decode_all_In _ _ _ media Ed Hm) as [m Em].
    unfold decode_media in Em.
    destruct (Json.Media.url media) as [| |u]; try discriminate.
    destruct (Json.Media.preview_url media) as [| |p]; try discriminate.
    now exists u, p.
  - intros l emoji El Hm. rewrite El in Ee.
    destruct l as [|x l]; [destruct Hm|].
    assert (Ec : exists c, Json.Comment.content comment = Str c).
    { unfold Json.emojify in Ee. cbn [foldM] in Ee.
      destruct (Json.emojify_pass (Json.Comment.content comment) x) as [v| |] eqn:Ex;
        cbn [bind] in Ee; try discriminate.
      exact (Json_emojify_pass_content _ _ _ Ex). }
    split; [exact Ec|]. destruct Ec as [c Ec]. rewrite Ec in Ee.
    destruct (Json_emojify_fold_value (x :: l) c content Ee) as [es Ed].
    destruct (decode_all_In _ _ _ emoji Ed Hm) as [e Em].
    unfold decode_emoji in Em.
    destruct (Json.Emoji.shortcode emoji) as [| |sc]; try discriminate.
    destruct (Json.Emoji.url emoji) as [| |u]; try discriminate.
    now exists sc, u.
Qed.

(** A reply whose texts are strings, and one whose permalink is null. *)
Lemma Json_renderComment_texts_witness :
  @Json.renderComment example_platform
    (example_json_comment (Str "https://example.social/@user/1") None) "en"
  = @renderComment example_platform
      {| Comment.account :=
           {| Account.display_name := Some "Ann";
              Account.username := "user";
              Account.url := "https://example.social/@user";
              Account.avatar := "https://example.social/a.png" |};
         Comment.content := "<p>hi</p>";
         Comment.emojis := Some [];
         Comment.created_at := "2024-01-01T10:00:00Z";
         Comment.url := "https://example.social/@user/1";
         Comment.media_attachments := None |} "en"
  /\ forall html,
       @Json.renderComment example_platform (example_json_comment Null None) "en"
       <> Value html.
Proof.
  split.
  - exact (proj1 (@Json_renderComment_texts example_platform
                    (example_json_comment (Str "https://example.social/@user/1") None) "en")
             _ eq_refl).
  - intros html Hr.
    destruct (proj1 (proj2 (@Json_renderComment_texts example_platform
                              (example_json_comment Null None) "en") html Hr))
      as [username [url [avatar [permalink [_ [_ [_ E]]]]]]].
    discriminate E.
Defined.

(** ** The two source files on plain input *)

Lemma decode_all_forallb {A B : Type} (d : A -> option B) (f : B -> bool)
    (l : list A) (bs : list B) (a : A) (b : B) :
  decode_all d l = Some bs -> forallb f bs = true -> In a l -> d a = Some b -> f b = true.
Proof.
  revert bs; induction l as [|x l IH]; intros bs E Hf Ha Hd; [destruct Ha|].
  cbn [decode_all] in E. destruct (d x) as [y|] eqn:Ex; [|discriminate].
  destruct (decode_all d l) as [bs'|]; [|discriminate].
  injection E as <-. cbn [forallb] in Hf. apply andb_true_iff in Hf as [Hy Hf].
  destruct Ha as [<- | Ha]; [congruence | now apply (IH bs')].
Qed.

(** X12.  On replies all of whose texts are strings and whose URLs, MIME
    types and emoji texts hold none of the five characters, the renderer
    of the second source file, which does not pass them through the
    sanitizer, gives the same fragment as renderComment; so do the two
    list renderers on replies of that kind.  On a reply whose permalink is
    null the two differ: renderComment gives no fragment, and the second
    source file prints [null] as the address of the link. *)
Theorem Variant_render_agrees `{Platform} (lang : string) :
  (forall replies comments,
      decode_all decode_comment replies = Some comments ->
      forallb plain_comment comments = true ->
      Forall (fun reply =>
                JsonVariant.renderComment reply lang = Json.renderComment reply lang) replies
      /\ JsonVariant.renderComments (Some replies) lang
         = Json.renderComments (Some replies) lang)
  /\ (forall reply html,
        text_of (Json.Comment.url reply) = None ->
        Json.renderComment reply lang <> Value html)
  /\ (@Json.renderComment example_platform (example_json_comment Null None) "en"
      = Throws TypeError
      /\ exists html,
           @JsonVariant.renderComment example_platform (example_json_comment Null None) "en"
           = Value html
           /\ occurs (String "<" ("a href=" ++ String "034"%char ("null"
                        ++ String "034"%char " target="))) html = true).
Proof.
  split; [|split].
  - intros replies comments Ed Hp. split.
    + apply Forall_forall. intros reply Hin.
      destruct (decode_all_In _ _ _ reply Ed Hin) as [c Ec].
      rewrite (JsonVariant_renderComment_decoded reply c lang Ec),
        (Json_renderComment_decoded reply c lang Ec).
      apply Variant_renderComment_plain.
      exact (decode_all_forallb _ _ _ _ reply c Ed Hp Hin Ec).
    + rewrite (JsonVariant_renderComments_decoded _ _ lang Ed),
        (Json_renderComments_decoded _ _ lang Ed).
      now apply Variant_renderComments_plain.
  - intros reply html Hu Hr. unfold Json.renderComment in Hr.
    destruct (escapeHtml_value (or_value _ _)); cbn [bind] in Hr; try discriminate.
    destruct (escapeHtml_value (Json.Account.username _)); cbn [bind] in Hr; try discriminate.
    destruct (escapeHtml_value (Json.Account.url _)); cbn [bind] in Hr; try discriminate.
    destruct (escapeHtml_value (Json.Account.avatar _)); cbn [bind] in Hr; try discriminate.
    destruct (Json.emojify _ _); cbn [bind] in Hr; try discriminate.
    destruct (formatDate _ _); cbn [bind] in Hr; try discriminate.
    destruct (Json.Comment.url reply); cbn [escapeHtml_value bind] in Hr; discriminate.
  - split; [reflexivity|]. eexists. split; reflexivity.
Qed.

(** Two plain replies, the second with an attachment. *)
Lemma Variant_render_agrees_witness :
  @JsonVariant.renderComments example_platform
    (Some [example_json_comment (Str "https://example.social/@user/1") None;
           example_json_comment (Str "https://example.social/@user/2")
             (Some [example_audio (Str "https://example.social/song.png")])]) "en"
  = @Json.renderComments example_platform
      (Some [example_json_comment (Str "https://example.social/@user/1") None;
             example_json_comment (Str "https://example.social/@user/2")
               (Some [example_audio (Str "https://example.social/song.png")])]) "en".
Proof.
  destruct (proj1 (@Variant_render_agrees example_platform "en")
              [example_json_comment (Str "https://example.social/@user/1") None;
               example_json_comment (Str "https://example.social/@user/2")
                 (Some [example_audio (Str "https://example.social/song.png")])]
              _ eq_refl eq_refl) as [_ E].
  exact E.
Defined.
